(** * Delivery pipeline of the WhatsApp API service

    A shallow embedding of the parts of the NestJS service that carry the
    delivery pipeline: the webhook signature guard, the message-status
    service with its mongoose schema, the socket.io events gateway, the
    webhook controller and the text send path of the WhatsApp service.

    Conventions of the embedding.
    - A JavaScript string is represented by its UTF-8 encoding, a Rocq
      [string]; [Buffer.from(s)] is then the list of bytes of [s].
    - A [Date] is a valid instant, in milliseconds since the epoch.
    - Effects (logger, database, socket.io server, collaborators, thrown
      exceptions) are explicit: a computation is a function from the
      [World] to an [Outcome] and the next [World].
    - Numbers that the code computes with [/] and [Math.round] are IEEE 754
      binary64 values, Rocq's primitive floats. *)

From Stdlib Require Import ZArith List String Ascii Bool Lia Floats Uint63.
From Stdlib.Strings Require Import Byte.
From stdpp Require Import base option list gmap strings pretty sorting.

Local Open Scope string_scope.
Local Open Scope list_scope.
Local Open Scope Z_scope.

(** ** The JavaScript runtime: exceptions and outcomes *)

Module Runtime.

(** The exceptions the modelled code throws or catches. [AxiosError]
    carries the [response] of a failed HTTP call when there is one: its
    status and the provider's [error.message]. *)
Inductive Exn : Type :=
| UnauthorizedException (msg : string)
| HttpException (msg : string) (status : Z)
| ValidationError (msg : string)
| MongoServerError (msg : string)
| RangeError (msg : string)
| AxiosError (msg : string) (response : option (Z * option string))
| Error (msg : string).

(** [err.message] *)
Definition exn_message (e : Exn) : string :=
  match e with
  | UnauthorizedException m | HttpException m _ | ValidationError m
  | MongoServerError m | RangeError m | AxiosError m _ | Error m => m
  end.

Inductive Outcome (A : Type) : Type :=
| Return (a : A)
| Throw (e : Exn).
Arguments Return {A} a.
Arguments Throw {A} e.

Definition returned {A} (o : Outcome A) : bool :=
  match o with Return _ => true | Throw _ => false end.

Inductive LogLevel : Type := LOG | ERROR | WARN | DEBUG.

Record LogEntry : Type := mkLog { level : LogLevel; text : string }.

(** A [Date] that is a valid instant: milliseconds since the epoch. *)
Definition Date : Type := Z.

(** JavaScript truthiness of a string and of an optional string. *)
Definition truthy (s : string) : bool :=
  match s with EmptyString => false | String _ _ => true end.

Definition truthy_opt (o : option string) : bool :=
  match o with Some s => truthy s | None => false end.

End Runtime.
Export Runtime.

(** ** Node's [crypto] module: SHA-256 (FIPS 180-4), HMAC (RFC 2104),
    hexadecimal digests and [timingSafeEqual] *)

Module Crypto.

Definition Buffer : Type := list byte.

Definition byte_to_Z (b : byte) : Z := Z.of_N (Byte.to_N b).

Definition byte_of_Z (z : Z) : byte :=
  match Byte.of_N (Z.to_N (z mod 256)) with Some b => b | None => x00 end.

(** [Buffer.from(s)] for a string [s]: its UTF-8 bytes. *)
Definition Buffer_from (s : string) : Buffer := list_byte_of_string s.

Definition w32 (x : Z) : Z := x mod 2 ^ 32.
Definition add32 (x y : Z) : Z := w32 (x + y).
Definition rotr (n x : Z) : Z :=
  Z.lor (Z.shiftr x n) (w32 (Z.shiftl x (32 - n))).
Definition not32 (x : Z) : Z := Z.lxor x (2 ^ 32 - 1).
Definition Ch (x y z : Z) : Z := Z.lxor (Z.land x y) (Z.land (not32 x) z).
Definition Maj (x y z : Z) : Z :=
  Z.lxor (Z.lxor (Z.land x y) (Z.land x z)) (Z.land y z).
Definition bsig0 (x : Z) : Z :=
  Z.lxor (Z.lxor (rotr 2 x) (rotr 13 x)) (rotr 22 x).
Definition bsig1 (x : Z) : Z :=
  Z.lxor (Z.lxor (rotr 6 x) (rotr 11 x)) (rotr 25 x).
Definition ssig0 (x : Z) : Z :=
  Z.lxor (Z.lxor (rotr 7 x) (rotr 18 x)) (Z.shiftr x 3).
Definition ssig1 (x : Z) : Z :=
  Z.lxor (Z.lxor (rotr 17 x) (rotr 19 x)) (Z.shiftr x 10).

(** The round constants are the first 32 bits of the fractional parts of
    the cube roots of the first 64 primes; the initial hash value, of the
    square roots of the first 8. They are computed rather than listed. *)
Definition is_prime (n : Z) : bool :=
  (1 <? n)
  && forallb (fun d => negb (n mod d =? 0))
             (map Z.of_nat (seq 2 (Z.to_nat (Z.sqrt n) - 1))).

Definition primes64 : list Z :=
  Eval vm_compute in List.filter is_prime (map Z.of_nat (seq 2 310)).

Definition icbrt (n : Z) : Z :=
  fold_left
    (fun r i => let r' := r + 2 ^ Z.of_nat i in
                if r' * r' * r' <=? n then r' else r)
    (rev (seq 0 40)) 0.

Definition K256 : list Z :=
  Eval vm_compute in map (fun p => w32 (icbrt (p * 2 ^ 96))) primes64.

Definition H256 : list Z :=
  Eval vm_compute in map (fun p => w32 (Z.sqrt (p * 2 ^ 64))) (take 8 primes64).

Fixpoint be_words (bs : list Z) : list Z :=
  match bs with
  | b0 :: b1 :: b2 :: b3 :: rest =>
      (b0 * 2 ^ 24 + b1 * 2 ^ 16 + b2 * 2 ^ 8 + b3) :: be_words rest
  | _ => []
  end.

Definition word_bytes (x : Z) : list Z :=
  [Z.shiftr x 24 mod 256; Z.shiftr x 16 mod 256; Z.shiftr x 8 mod 256;
   x mod 256].

Definition pad (msg : list Z) : list Z :=
  let len := Z.of_nat (length msg) in
  let k := (55 - len) mod 64 in
  msg ++ [128] ++ repeat 0 (Z.to_nat k)
      ++ word_bytes (Z.shiftr (8 * len) 32) ++ word_bytes (w32 (8 * len)).

Fixpoint schedule (n : nat) (W : list Z) : list Z :=
  match n with
  | O => W
  | S n' =>
      let t := length W in
      let at_ i := nth (t - i) W 0 in
      schedule n'
        (W ++ [w32 (ssig1 (at_ 2%nat) + at_ 7%nat
                    + ssig0 (at_ 15%nat) + at_ 16%nat)])
  end.

Definition round (st : list Z) (kw : Z * Z) : list Z :=
  match st with
  | [a; b; c; d; e; f; g; h] =>
      let t1 := w32 (h + bsig1 e + Ch e f g + fst kw + snd kw) in
      let t2 := w32 (bsig0 a + Maj a b c) in
      [add32 t1 t2; a; b; c; add32 d t1; e; f; g]
  | _ => st
  end.

Definition compress (H : list Z) (block : list Z) : list Z :=
  let W := schedule 48 (be_words block) in
  zip_with add32 H (fold_left round (zip K256 W) H).

Fixpoint blocks (n : nat) (bs : list Z) : list (list Z) :=
  match n with
  | O => []
  | S n' =>
      match bs with
      | [] => []
      | _ => take 64 bs :: blocks n' (drop 64 bs)
      end
  end.

Definition sha256 (msg : Buffer) : Buffer :=
  let padded := pad (map byte_to_Z msg) in
  map byte_of_Z
      (concat (map word_bytes
                   (fold_left compress (blocks (length padded) padded) H256))).

Definition xor_pad (c : Z) (key : Buffer) : Buffer :=
  map (fun b => byte_of_Z (Z.lxor (byte_to_Z b) c))
      (key ++ repeat x00 (64 - length key)).

(** [crypto.createHmac('sha256', key).update(msg).digest()] *)
Definition hmac_sha256 (key msg : Buffer) : Buffer :=
  let key' := if (64 <? length key)%nat then sha256 key else key in
  sha256 (xor_pad 92 key' ++ sha256 (xor_pad 54 key' ++ msg)).

Definition hex_digit (n : Z) : ascii :=
  nth (Z.to_nat n) (list_ascii_of_string "0123456789abcdef") "0"%char.

(** The value of a lowercase hexadecimal digit. *)
Definition unhex_digit (c : ascii) : Z :=
  let n := Z.of_N (N_of_ascii c) in
  if n <? 58 then n - 48 else n - 87.

(** [.digest('hex')]: two lowercase hexadecimal digits per byte. *)
Fixpoint hex (bs : Buffer) : string :=
  match bs with
  | [] => EmptyString
  | b :: rest =>
      String (hex_digit (byte_to_Z b / 16))
             (String (hex_digit (byte_to_Z b mod 16)) (hex rest))
  end.

Fixpoint Buffer_eqb (a b : Buffer) : bool :=
  match a, b with
  | [], [] => true
  | x :: a', y :: b' => Byte.eqb x y && Buffer_eqb a' b'
  | _, _ => false
  end.

(** [crypto.timingSafeEqual(a, b)]: throws a [RangeError] when the byte
    lengths differ, otherwise compares the contents. *)
Definition timingSafeEqual (a b : Buffer) : Outcome bool :=
  if (length a =? length b)%nat
  then Return (Buffer_eqb a b)
  else Throw (RangeError "Input buffers must have the same byte length").

End Crypto.

(** ** The mongoose schema of a delivery record (message-status.schema.ts) *)

Module Schema.

Inductive DeliveryStatus : Type := PENDING | SENT | DELIVERED | READ | FAILED.

(** The string value of each member of the enum. *)
Definition DeliveryStatus_value (s : DeliveryStatus) : string :=
  match s with
  | PENDING => "pending"
  | SENT => "sent"
  | DELIVERED => "delivered"
  | READ => "read"
  | FAILED => "failed"
  end.

Global Instance DeliveryStatus_eq_dec : EqDecision DeliveryStatus.
Proof. solve_decision. Defined.

Record StatusUpdate : Type := mkStatusUpdate {
  status : DeliveryStatus;
  timestamp : Date;
  su_errorCode : option string;
  su_errorMessage : option string
}.

Definition Metadata : Type := list (string * string).

Record MessageStatus : Type := mkMessageStatus {
  messageId : string;
  recipientPhone : string;
  conversationId : option string;
  currentStatus : DeliveryStatus;
  statusHistory : list StatusUpdate;
  sentAt : option Date;
  deliveredAt : option Date;
  readAt : option Date;
  failedAt : option Date;
  errorCode : option string;
  errorMessage : option string;
  metadata : option Metadata;
  createdAt : option Date;
  updatedAt : option Date
}.

(** The required validator of a String path: the value is a string and
    it is not empty. [messageId], [recipientPhone] and [conversationId]
    are declared [required: true]; the enum and Date paths hold valid
    values by their types. The result is the path that fails. *)
Definition validate (d : MessageStatus) : option string :=
  if negb (truthy (messageId d)) then Some "messageId"
  else if negb (truthy (recipientPhone d)) then Some "recipientPhone"
  else if negb (truthy_opt (conversationId d)) then Some "conversationId"
  else None.

Definition validation_message (path : string) : string :=
  "MessageStatus validation failed: " +:+ path +:+ ": Path `" +:+ path
    +:+ "` is required.".

End Schema.
Export Schema.

(** ** The world the services act on *)

Module Env.

(** The payload of a [messageStatusUpdate] / [messageStatusChanged]
    event. *)
Record StatusEvent : Type := mkStatusEvent {
  ev_messageId : string;
  ev_recipientPhone : string;
  ev_conversationId : option string;
  ev_status : DeliveryStatus;
  ev_timestamp : Date;
  ev_errorCode : option string;
  ev_errorMessage : option string
}.

(** One [emit] on the socket.io server: [server.to(room).emit(name, data)]
    when [room] is [Some _], [server.emit(name, data)] to every client
    when it is [None]. *)
Record Emission : Type := mkEmission {
  room : option string;
  event : string;
  data : StatusEvent
}.

(** A call that reached one of the collaborators whose code is outside
    this development: the provider's HTTP endpoint, the WebhooksService
    and the conversation layer. They keep their own data: none of them
    reads or writes the collection of delivery records, and none emits a
    message-status event. *)
Inductive Call : Type :=
| HttpPost (to type body : string)
| AddWebhook (type : string)
| WebhooksUpdateStatus (id status : string)
| HandleMessages.

Record World : Type := mkWorld {
  db : gmap string MessageStatus;
  emitted : list Emission;
  logs : list LogEntry;
  calls : list Call
}.

Definition M (A : Type) : Type := World -> Outcome A * World.

Global Instance M_ret : MRet M := fun A a w => (Return a, w).

Global Instance M_bind : MBind M := fun A B f m w =>
  match m w with
  | (Return a, w') => f a w'
  | (Throw e, w') => (Throw e, w')
  end.

Definition throw {A} (e : Exn) : M A := fun w => (Throw e, w).

(** [try { body } catch (error) { handler error }] *)
Definition try_catch {A} (body : M A) (handler : Exn -> M A) : M A :=
  fun w =>
    match body w with
    | (Return a, w') => (Return a, w')
    | (Throw e, w') => handler e w'
    end.

Definition add_log (l : LogLevel) (t : string) (w : World) : World :=
  {| db := db w; emitted := emitted w;
     logs := logs w ++ [mkLog l t]; calls := calls w |}.

(** [this.logger.<level>(text)] *)
Definition logger (l : LogLevel) (t : string) : M unit := fun w =>
  (Return tt, add_log l t w).

Definition add_emission (e : Emission) (w : World) : World :=
  {| db := db w; emitted := emitted w ++ [e];
     logs := logs w; calls := calls w |}.

(** [this.server.to(room).emit(event, data)] and [this.server.emit] *)
Definition emit (r : option string) (e : string) (d : StatusEvent) : M unit :=
  fun w => (Return tt, add_emission (mkEmission r e d) w).

(** [this.messageStatusModel.findOne({ messageId })]: [messageId] has a
    unique index, so the collection is a map keyed by it. *)
Definition findOne (id : string) : M (option MessageStatus) := fun w =>
  (Return (db w !! id), w).

Definition set_db (m : gmap string MessageStatus) (w : World) : World :=
  {| db := m; emitted := emitted w; logs := logs w; calls := calls w |}.

Definition stamp (isNew : bool) (now : Date) (d : MessageStatus)
  : MessageStatus :=
  {| messageId := messageId d; recipientPhone := recipientPhone d;
     conversationId := conversationId d; currentStatus := currentStatus d;
     statusHistory := statusHistory d; sentAt := sentAt d;
     deliveredAt := deliveredAt d; readAt := readAt d;
     failedAt := failedAt d; errorCode := errorCode d;
     errorMessage := errorMessage d; metadata := metadata d;
     createdAt := if isNew then Some now else createdAt d;
     updatedAt := Some now |}.

(** [document.save()]: validation against the schema, then the write.
    The schema has [timestamps: true]: a new document gets [createdAt],
    every save sets [updatedAt]. Inserting a second document with a
    [messageId] already present violates the unique index. *)
Definition save (isNew : bool) (now : Date) (d : MessageStatus)
  : M MessageStatus := fun w =>
  match validate d with
  | Some path => (Throw (ValidationError (validation_message path)), w)
  | None =>
      if isNew && bool_decide (is_Some (db w !! messageId d))
      then (Throw (MongoServerError "E11000 duplicate key error"), w)
      else let d' := stamp isNew now d in
           (Return d', set_db (<[messageId d := d']> (db w)) w)
  end.

(** The collection as the unique index and the schema keep it: every
    document is stored under its own [messageId] and satisfies the
    schema. *)
Definition store_ok (m : gmap string MessageStatus) : Prop :=
  map_Forall (fun id d => messageId d = id /\ validate d = None) m.

(** whatsapp.interface.ts *)
Record ApiContact : Type := mkApiContact { input : string; wa_id : string }.

Record ApiMessage : Type := mkApiMessage {
  msg_id : string;
  message_status : option string
}.

Record WhatsappApiResponse : Type := mkWhatsappApiResponse {
  messaging_product : string;
  contacts : list ApiContact;
  messages : list ApiMessage
}.

(** The behaviour of the collaborators: what each call answers, given
    the calls made so far. [None] is a call that resolves. *)
Record Collaborators : Type := mkCollaborators {
  post_result : list Call -> string -> string -> string
                -> Exn + WhatsappApiResponse;
  addWebhook_result : list Call -> string -> option Exn;
  webhooks_updateStatus_result : list Call -> string -> string -> option Exn;
  handleMessages_result : list Call -> option Exn
}.

Definition record_call (c : Call) (w : World) : World :=
  {| db := db w; emitted := emitted w; logs := logs w;
     calls := calls w ++ [c] |}.

Definition call_unit (c : Call) (r : list Call -> option Exn) : M unit :=
  fun w =>
    match r (calls w) with
    | None => (Return tt, record_call c w)
    | Some e => (Throw e, record_call c w)
    end.

(** Collaborators whose WebhooksService and conversation layer answer
    every call. *)
Definition collaborators_resolve (ext : Collaborators) : Prop :=
  (forall cs t, addWebhook_result ext cs t = None)
  /\ (forall cs i s, webhooks_updateStatus_result ext cs i s = None)
  /\ (forall cs, handleMessages_result ext cs = None).

(** A computation that leaves the collection of delivery records as it
    found it, whatever its outcome. *)
Definition preserves_db {A} (m : M A) : Prop :=
  forall w : World, db (snd (m w)) = db w.

(** A computation that keeps the collection well formed. *)
Definition keeps_store_ok {A} (m : M A) : Prop :=
  forall w : World, store_ok (db w) -> store_ok (db (snd (m w))).

End Env.
Export Env.

(** ** WebhookSignatureGuard (webhook-signature.guard.ts) *)

Module Guard.
Import Crypto.

(** [request.rawBody]: a [Buffer] (what the transport captures) or a
    string. *)
Inductive RawBody : Type :=
| BodyBuffer (b : Buffer)
| BodyString (s : string).

(** The bytes [Hmac.update(payload)] consumes. *)
Definition payload_bytes (p : RawBody) : Buffer :=
  match p with
  | BodyBuffer b => b
  | BodyString s => Buffer_from s
  end.

(** Truthiness of [rawBody]: every Buffer is truthy, also the empty one;
    the empty string is falsy. *)
Definition truthy_body (p : option RawBody) : bool :=
  match p with
  | None => false
  | Some (BodyBuffer _) => true
  | Some (BodyString s) => truthy s
  end.

Record Request : Type := mkRequest {
  x_hub_signature_256 : option string;
  rawBody : option RawBody
}.

Definition expectedSignature (appSecret : string) (payload : RawBody)
  : string :=
  "sha256=" +:+ hex (hmac_sha256 (Buffer_from appSecret) (payload_bytes payload)).

(** What the [catch] of [verifySignature] logs for buffers of different
    byte lengths. *)
Definition length_error : string :=
  "Signature verification error: Input buffers must have the same byte length".

Definition verifySignature (appSecret : string) (payload : RawBody)
           (signature : string) : M bool :=
  try_catch
    (fun w =>
       (timingSafeEqual (Buffer_from signature)
                        (Buffer_from (expectedSignature appSecret payload)),
        w))
    (fun err =>
       logger ERROR ("Signature verification error: " +:+ exn_message err) ;;
       mret false).

Definition canActivate (appSecret : string) (request : Request) : M bool :=
  let signature := x_hub_signature_256 request in
  if negb (truthy appSecret) then
    logger WARN
      "WHATSAPP_APP_SECRET not configured - webhook signature verification skipped" ;;
    mret true
  else if negb (truthy_opt signature) then
    logger ERROR "Missing X-Hub-Signature-256 header" ;;
    throw (UnauthorizedException "Missing webhook signature")
  else if negb (truthy_body (rawBody request)) then
    logger ERROR "Raw body not available for signature verification" ;;
    throw (UnauthorizedException "Cannot verify webhook signature")
  else
    match signature, rawBody request with
    | Some sig, Some body =>
        isValid ← verifySignature appSecret body sig ;
        if negb isValid then
          logger ERROR "Invalid webhook signature" ;;
          throw (UnauthorizedException "Invalid webhook signature")
        else
          logger DEBUG "Webhook signature verified successfully" ;;
          mret true
    | _, _ =>
        (* not reached: both were found truthy above *)
        throw (UnauthorizedException "Cannot verify webhook signature")
    end.

End Guard.

(** ** EventsGateway (events.gateway.ts) *)

Module Gateway.

(** The deliveries of one publish, in the order of the specification:
    the recipient's topic, the conversation's topic when the event has a
    (non-empty) conversation id, the global topic. *)
Definition delivery_order (d : StatusEvent) : list Emission :=
  [mkEmission (Some ("status-" +:+ ev_recipientPhone d)) "messageStatusUpdate" d]
    ++ (if truthy_opt (ev_conversationId d)
        then [mkEmission (Some ("conversation-" +:+ default "" (ev_conversationId d)))
                         "messageStatusUpdate" d]
        else [])
    ++ [mkEmission None "messageStatusChanged" d].

Definition publish (d : StatusEvent) (w : World) : World :=
  {| db := db w; emitted := emitted w ++ delivery_order d;
     logs := logs w; calls := calls w |}.

Definition emitMessageStatusUpdate (d : StatusEvent) : M unit :=
  emit (Some ("status-" +:+ ev_recipientPhone d)) "messageStatusUpdate" d ;;
  (match ev_conversationId d with
   | Some c =>
       if truthy c
       then emit (Some ("conversation-" +:+ c)) "messageStatusUpdate" d
       else mret tt
   | None => mret tt
   end) ;;
  emit None "messageStatusChanged" d.

End Gateway.

(** ** JavaScript numbers *)

Module JsNumber.

(** The Number of a document count. *)
Definition of_nat (n : nat) : float :=
  PrimFloat.of_uint63 (Uint63.of_Z (Z.of_nat n)).

(** [Math.round(x)]: the integer nearest to [x], ties toward +infinity;
    NaN, the infinities, the zeros and integral values are returned as
    they are. A finite [x] is [m * 2^e]; with [e < 0] its integer part is
    below 2^53 and converts exactly. *)
Definition Math_round (x : float) : float :=
  match Prim2SF x with
  | S754_finite neg m e =>
      if 0 <=? e then x
      else
        let d := 2 ^ (- e) in
        let q := Z.pos m / d in
        let r := Z.pos m mod d in
        if r =? 0 then x
        else if neg then
          let k := if 2 * r <=? d then q else q + 1 in
          PrimFloat.opp (PrimFloat.of_uint63 (Uint63.of_Z k))
        else
          let k := if 2 * r <? d then q else q + 1 in
          PrimFloat.of_uint63 (Uint63.of_Z k)
  | _ => x
  end.

End JsNumber.

(** ** MessageStatusService (message-status.service.ts) *)

Module StatusService.
Import JsNumber.

Definition createMessageStatus (now : Date) (msgId phone : string)
           (conv : option string) (meta : option Metadata)
  : M MessageStatus :=
  let messageStatus :=
    {| messageId := msgId;
       recipientPhone := phone;
       conversationId := conv;
       currentStatus := PENDING;
       statusHistory := [mkStatusUpdate PENDING now None None];
       sentAt := None; deliveredAt := None; readAt := None; failedAt := None;
       errorCode := None; errorMessage := None;
       metadata := meta;
       createdAt := None; updatedAt := None |} in
  saved ← save true now messageStatus ;
  logger DEBUG ("Created message status for " +:+ msgId) ;;
  mret saved.

(** The body of [updateStatus] between [findOne] and [save]: the
    assignments to the document in memory. *)
Definition apply_update (d : MessageStatus) (st : DeliveryStatus)
           (ts : Date) (code msg : option string) : MessageStatus :=
  {| messageId := messageId d;
     recipientPhone := recipientPhone d;
     conversationId := conversationId d;
     (* messageStatus.currentStatus = status *)
     currentStatus := st;
     (* messageStatus.statusHistory.push({ ... }) *)
     statusHistory := statusHistory d ++ [mkStatusUpdate st ts code msg];
     sentAt := match st with SENT => Some ts | _ => sentAt d end;
     deliveredAt := match st with DELIVERED => Some ts | _ => deliveredAt d end;
     readAt := match st with READ => Some ts | _ => readAt d end;
     failedAt := match st with FAILED => Some ts | _ => failedAt d end;
     errorCode := match st with FAILED => code | _ => errorCode d end;
     errorMessage := match st with FAILED => msg | _ => errorMessage d end;
     metadata := metadata d;
     createdAt := createdAt d;
     updatedAt := updatedAt d |}.

(** The event [updateStatus] hands to the gateway. *)
Definition status_event (d : MessageStatus) (msgId : string)
           (st : DeliveryStatus) (ts : Date) (code msg : option string)
  : StatusEvent :=
  {| ev_messageId := msgId;
     ev_recipientPhone := recipientPhone d;
     ev_conversationId := conversationId d;
     ev_status := st;
     ev_timestamp := ts;
     ev_errorCode := code;
     ev_errorMessage := msg |}.

Definition updateStatus (now : Date) (msgId : string) (st : DeliveryStatus)
           (ts : Date) (code msg : option string)
  : M (option MessageStatus) :=
  messageStatus ← findOne msgId ;
  match messageStatus with
  | None =>
      logger WARN ("Message status not found for " +:+ msgId) ;;
      mret None
  | Some d =>
      updated ← save false now (apply_update d st ts code msg) ;
      Gateway.emitMessageStatusUpdate (status_event d msgId st ts code msg) ;;
      logger DEBUG ("Updated message " +:+ msgId +:+ " status to "
                      +:+ DeliveryStatus_value st) ;;
      mret (Some updated)
  end.

(** A sequence of [updateStatus] calls on one message id: each call with
    the clock reading at its save. *)
Record StatusCall : Type := mkStatusCall {
  call_now : Date;
  call_status : DeliveryStatus;
  call_timestamp : Date;
  call_errorCode : option string;
  call_errorMessage : option string
}.

Definition applyStatus (msgId : string) (c : StatusCall)
  : M (option MessageStatus) :=
  updateStatus (call_now c) msgId (call_status c) (call_timestamp c)
               (call_errorCode c) (call_errorMessage c).

Fixpoint applyAll (msgId : string) (cs : list StatusCall) (w : World) : World :=
  match cs with
  | [] => w
  | c :: rest => applyAll msgId rest (snd (applyStatus msgId c w))
  end.

(** The history entry a call pushes. *)
Definition history_entry (c : StatusCall) : StatusUpdate :=
  mkStatusUpdate (call_status c) (call_timestamp c)
                 (call_errorCode c) (call_errorMessage c).

(** The canonical ordering of the specification,
    pending < sent < delivered < read; [failed] stands apart. *)
Definition precedes (a b : DeliveryStatus) : bool :=
  match a, b with
  | PENDING, (SENT | DELIVERED | READ) => true
  | SENT, (DELIVERED | READ) => true
  | DELIVERED, READ => true
  | _, _ => false
  end.

Definition getByMessageId (msgId : string) : M (option MessageStatus) :=
  findOne msgId.

(** The [createdAt] part of the query: present when a bound is given. *)
Definition dateFilter (startDate endDate : option Date)
  : option (option Date * option Date) :=
  match startDate, endDate with
  | None, None => None
  | _, _ => Some (startDate, endDate)
  end.

Definition in_window (f : option (option Date * option Date))
           (d : MessageStatus) : bool :=
  match f with
  | None => true
  | Some (lo, hi) =>
      match createdAt d with
      | None => false
      | Some c =>
          match lo with Some a => a <=? c | None => true end
          && match hi with Some b => c <=? b | None => true end
      end
  end.

(** [this.messageStatusModel.countDocuments(query)] *)
Definition countDocuments (query : MessageStatus -> bool)
           (m : gmap string MessageStatus) : nat :=
  length (List.filter query (map snd (map_to_list m))).

Definition has_status (s : DeliveryStatus) (d : MessageStatus) : bool :=
  bool_decide (currentStatus d = s).

Record Statistics : Type := mkStatistics {
  total : nat;
  pending : nat;
  sent : nat;
  delivered : nat;
  read : nat;
  failed : nat;
  deliveryRate : float;
  readRate : float
}.

(** The arithmetic of [getStatistics] on the six counts. *)
Definition rates (total pending sent delivered read failed : nat)
  : Statistics :=
  let successfullyDelivered := PrimFloat.add (of_nat delivered) (of_nat read) in
  let deliveryRate :=
    if PrimFloat.ltb 0 (of_nat total)
    then PrimFloat.mul (PrimFloat.div successfullyDelivered (of_nat total)) 100
    else 0%float in
  let readRate :=
    if PrimFloat.ltb 0 successfullyDelivered
    then PrimFloat.mul (PrimFloat.div (of_nat read) successfullyDelivered) 100
    else 0%float in
  {| total := total; pending := pending; sent := sent;
     delivered := delivered; read := read; failed := failed;
     deliveryRate :=
       PrimFloat.div (Math_round (PrimFloat.mul deliveryRate 100)) 100;
     readRate :=
       PrimFloat.div (Math_round (PrimFloat.mul readRate 100)) 100 |}.


Definition getStatistics (startDate endDate : option Date) : M Statistics :=
  fun w =>
    let f := dateFilter startDate endDate in
    let count q := countDocuments (fun d => in_window f d && q d) (db w) in
    (Return (rates (count (fun _ => true))
                   (count (has_status PENDING))
                   (count (has_status SENT))
                   (count (has_status DELIVERED))
                   (count (has_status READ))
                   (count (has_status FAILED))),
     w).

End StatusService.

(** ** WhatsappService, the text send path (whatsapp.service.ts), and the
    SEND_TEXT case of the queue processor (whatsapp-queue.processor.ts) *)

Module Whatsapp.

Record SendMessageDto : Type := mkSendMessageDto {
  to : string;
  message : string;
  type : option string
}.

(** [this.httpService.post(url, payload, ...)] through [firstValueFrom]:
    the provider answers with the response data or the call throws. *)
Definition post (ext : Collaborators) (to_ type_ body : string)
  : M WhatsappApiResponse := fun w =>
  match post_result ext (calls w) to_ type_ body with
  | inr r => (Return r, record_call (HttpPost to_ type_ body) w)
  | inl e => (Throw e, record_call (HttpPost to_ type_ body) w)
  end.

(** [this.webhooksService.addWebhook(type, payload)] *)
Definition addWebhook (ext : Collaborators) (type_ : string) : M unit :=
  call_unit (AddWebhook type_) (fun cs => addWebhook_result ext cs type_).

(** The serialised payload in the debug text is left out. *)
Definition sendMessage (ext : Collaborators) (sendMessageDto : SendMessageDto)
  : M WhatsappApiResponse :=
  try_catch
    (let to_ := to sendMessageDto in
     let type_ := default "text" (type sendMessageDto) in
     logger DEBUG ("Sending message to " +:+ to_) ;;
     response ← post ext to_ type_ (message sendMessageDto) ;
     addWebhook ext "message_sent" ;;
     logger LOG ("Message sent successfully to " +:+ to_) ;;
     mret response)
    (fun err =>
       logger ERROR ("Failed to send message: " +:+ exn_message err) ;;
       match err with
       | AxiosError _ (Some (status, error_message)) =>
           throw (HttpException
                    ("WhatsApp API Error: "
                       +:+ (if truthy_opt error_message
                            then default "" error_message
                            else "Unknown error"))
                    status)
       | _ => throw (HttpException "Failed to send WhatsApp message" 500)
       end).

Definition sendTextMessage (ext : Collaborators) (to_ text_ : string)
  : M WhatsappApiResponse :=
  sendMessage ext {| to := to_; message := text_; type := Some "text" |}.

Record TextMessageJob : Type := mkTextMessageJob {
  job_to : string;
  job_text : string
}.

Record Job : Type := mkJob { job_id : string; job_data : TextMessageJob }.

Definition processTextMessage (ext : Collaborators) (d : TextMessageJob)
  : M WhatsappApiResponse :=
  logger DEBUG ("Sending text message to " +:+ job_to d) ;;
  sendTextMessage ext (job_to d) (job_text d).

(** [process(job)] for a job whose name is [JobType.SEND_TEXT]. *)
Definition process_SEND_TEXT (ext : Collaborators) (job : Job)
  : M WhatsappApiResponse :=
  logger DEBUG ("Processing job " +:+ job_id job +:+ " of type send-text") ;;
  try_catch
    (processTextMessage ext (job_data job))
    (fun err =>
       logger ERROR ("Failed to process job " +:+ job_id job +:+ ": "
                       +:+ exn_message err) ;;
       throw err).

End Whatsapp.

(** ** WebhookController (webhook.controller.ts) *)

Module Webhook.

Record WaError : Type := mkWaError {
  code : option Z;
  title : option string;
  wa_message : option string
}.

(** One entry of [value.statuses]. [wa_timestamp] is
    [parseInt(status.timestamp)], the provider's unix seconds. *)
Record WaStatus : Type := mkWaStatus {
  wa_id : string;
  wa_status : string;
  wa_timestamp : Z;
  recipient_id : string;
  errors : option (list WaError)
}.

(** [value.messages] is handed to the conversation layer as it is; its
    entries are kept opaque. *)
Record WaValue : Type := mkWaValue {
  wa_messages : option (list string);
  wa_statuses : option (list WaStatus)
}.

Record Change : Type := mkChange { value : option WaValue }.
Record Entry : Type := mkEntry { changes : option (list Change) }.
Record WebhookData : Type := mkWebhookData { entry : option (list Entry) }.

Record Response : Type := mkResponse {
  resp_status : string;
  resp_message : option string
}.

(** The webhook of a status callback: one entry, one change, a value with
    [statuses] and without [messages]. *)
Definition status_webhook (statuses : list WaStatus) : WebhookData :=
  {| entry :=
       Some [{| changes :=
                  Some [{| value :=
                             Some {| wa_messages := None;
                                     wa_statuses := Some statuses |} |}] |}] |}.

Definition mapWhatsAppStatus (whatsappStatus : string) : DeliveryStatus :=
  if String.eqb whatsappStatus "sent" then SENT
  else if String.eqb whatsappStatus "delivered" then DELIVERED
  else if String.eqb whatsappStatus "read" then READ
  else if String.eqb whatsappStatus "failed" then FAILED
  else PENDING.

(** What a callback that matches no record leaves behind: the warning of
    [updateStatus] and the call to the WebhooksService. *)
Definition orphan_warning (s : WaStatus) : LogEntry :=
  mkLog WARN ("Message status not found for " +:+ wa_id s).

Definition status_call (s : WaStatus) : Call :=
  WebhooksUpdateStatus (wa_id s) (wa_status s).

(** [webhookData.entry?.[0]?.changes?.[0]?.value] *)
Definition first_value (webhookData : WebhookData) : option WaValue :=
  e ← entry webhookData ≫= head ;
  c ← changes e ≫= head ;
  value c.

(** [status.errors[0].code?.toString()] and
    [status.errors[0].title || status.errors[0].message], taken when
    [status.errors && status.errors.length > 0]. *)
Definition error_code (s : WaStatus) : option string :=
  e ← errors s ≫= head ; pretty <$> code e.

Definition error_message (s : WaStatus) : option string :=
  e ← errors s ≫= head ;
  if truthy_opt (title e) then title e else wa_message e.

Definition process_status (ext : Collaborators) (now : Date) (s : WaStatus)
  : M unit :=
  let deliveryStatus := mapWhatsAppStatus (wa_status s) in
  let timestamp_ := wa_timestamp s * 1000 in
  StatusService.updateStatus now (wa_id s) deliveryStatus timestamp_
                             (error_code s) (error_message s) ;;
  call_unit (WebhooksUpdateStatus (wa_id s) (wa_status s))
            (fun cs => webhooks_updateStatus_result ext cs (wa_id s) (wa_status s)).

(** [for (const status of statuses) { ... }] *)
Fixpoint for_statuses (ext : Collaborators) (now : Date)
         (statuses : list WaStatus) : M unit :=
  match statuses with
  | [] => mret tt
  | s :: rest => process_status ext now s ;; for_statuses ext now rest
  end.

(** The message branch (conversation lookup, creation or update, and the
    reply of the bot) runs in the conversation layer: one collaborator
    step that resolves or throws. *)
Definition receiveWebhook (ext : Collaborators) (now : Date)
           (webhookData : WebhookData) : M Response :=
  logger LOG "Received webhook data:" ;;
  try_catch
    (match first_value webhookData with
     | None => mret (mkResponse "ignored" (Some "No value in webhook data"))
     | Some v =>
         let webhookType :=
           if bool_decide (is_Some (wa_statuses v)) then "status"
           else if bool_decide (is_Some (wa_messages v)) then "message"
           else "unknown" in
         Whatsapp.addWebhook ext webhookType ;;
         (if bool_decide (is_Some (wa_messages v))
          then call_unit HandleMessages (handleMessages_result ext)
          else mret tt) ;;
         (match wa_statuses v with
          | Some statuses =>
              logger LOG "Message status update received:" ;;
              for_statuses ext now statuses
          | None => mret tt
          end) ;;
         mret (mkResponse "ok" None)
     end)
    (fun err =>
       logger ERROR ("Error processing webhook: " +:+ exn_message err) ;;
       mret (mkResponse "error" (Some (exn_message err)))).

End Webhook.

(** ** The operations that change the world *)

Module Service.

(** The entry points of the delivery pipeline: the seeding of a record,
    a status update, a webhook delivery and the processing of a text job. *)
Inductive Operation : Type :=
| Create (now : Date) (msgId phone : string) (conv : option string)
         (meta : option Metadata)
| Update (now : Date) (msgId : string) (st : DeliveryStatus) (ts : Date)
         (code msg : option string)
| Receive (ext : Collaborators) (now : Date) (webhookData : Webhook.WebhookData)
| Process (ext : Collaborators) (job : Whatsapp.Job).

Definition run (o : Operation) (w : World) : World :=
  match o with
  | Create now msgId phone conv meta =>
      snd (StatusService.createMessageStatus now msgId phone conv meta w)
  | Update now msgId st ts code msg =>
      snd (StatusService.updateStatus now msgId st ts code msg w)
  | Receive ext now webhookData =>
      snd (Webhook.receiveWebhook ext now webhookData w)
  | Process ext job => snd (Whatsapp.process_SEND_TEXT ext job w)
  end.

Definition run_all (ops : list Operation) (w : World) : World :=
  foldl (fun w o => run o w) w ops.

End Service.

(** ** Concrete inputs used by the examples *)

Module Scenarios.
Import Guard.

Definition empty_world : World :=
  {| db := ∅; emitted := []; logs := []; calls := [] |}.

(** The secret of the guard's test suite. *)
Definition testAppSecret : string := "test-app-secret".

Definition payload : RawBody := BodyString "payload".

(** [payload] with its last byte altered. *)
Definition tampered : RawBody := BodyString "paylobd".

(** The body with bit [k] of its byte [i] flipped. *)
Definition flip_bit (i k : nat) (b : Crypto.Buffer) : Crypto.Buffer :=
  match b !! i with
  | Some x =>
      <[i := Crypto.byte_of_Z (Z.lxor (Crypto.byte_to_Z x) (2 ^ Z.of_nat k))]> b
  | None => b
  end.

(** Does the guard accept [body] with the signature of [payload]? *)
Definition accepts_with_signature_of_payload (body : Crypto.Buffer) : bool :=
  returned
    (fst (canActivate testAppSecret
            (mkRequest (Some (expectedSignature testAppSecret payload))
                       (Some (BodyBuffer body)))
            empty_world)).

(** A record seeded for the message "wamid.1", then reported delivered. *)
Definition seeded_world : World :=
  snd (StatusService.createMessageStatus
         1000 "wamid.1" "+221700000000" (Some "conv-1") None empty_world).

Definition delivered_world : World :=
  snd (StatusService.updateStatus 3000 "wamid.1" DELIVERED 2500 None None
                                  seeded_world).

(** The late [sent] callback of the message, older than the delivery. *)
Definition late_sent : StatusService.StatusCall :=
  StatusService.mkStatusCall 4000 SENT 2000 None None.

(** A provider that accepts every send and answers with the message id
    "wamid.1"; the other collaborators answer every call. *)
Definition accepted_response : WhatsappApiResponse :=
  {| messaging_product := "whatsapp";
     contacts := [mkApiContact "+221700000000" "221700000000"];
     messages := [mkApiMessage "wamid.1" None] |}.

Definition provider_accepts : Collaborators :=
  {| post_result := fun _ _ _ _ => inr accepted_response;
     addWebhook_result := fun _ _ => None;
     webhooks_updateStatus_result := fun _ _ _ => None;
     handleMessages_result := fun _ => None |}.

Definition text_job : Whatsapp.Job :=
  Whatsapp.mkJob "1" (Whatsapp.mkTextMessageJob "+221700000000" "hello").

(** A [delivered] callback for a message this system never seeded. *)
Definition orphan_status : Webhook.WaStatus :=
  Webhook.mkWaStatus "wamid.unknown" "delivered" 1699999999 "221777460452" None.



End Scenarios.

(** ** MessageStatusService: the queries and the cleanup *)

Module StatusQueries.

(** [.sort({ createdAt: -1 })]: newest first; a document without
    [createdAt] sorts as null, after every dated one. Documents with the
    same [createdAt] come in the order of the scan. *)
Definition newest_first (a b : MessageStatus) : Prop :=
  match createdAt a, createdAt b with
  | _, None => True
  | None, Some _ => False
  | Some x, Some y => y <= x
  end.

Global Instance newest_first_dec (a b : MessageStatus) :
  Decision (newest_first a b).
Proof.
  unfold newest_first. destruct (createdAt a), (createdAt b); apply _.
Defined.

(** [.find(query).sort({ createdAt: -1 })] *)
Definition find_newest_first (query : MessageStatus -> bool)
           (m : gmap string MessageStatus) : list MessageStatus :=
  merge_sort newest_first (List.filter query (map snd (map_to_list m))).

(** [.skip(offset).limit(limit)] for counts that are not negative; a limit
    of 0 is no limit. *)
Definition skip_limit (offset limit : nat) (l : list MessageStatus)
  : list MessageStatus :=
  let rest := drop offset l in
  if (limit =? 0)%nat then rest else take limit rest.

Record Page : Type := mkPage {
  page_data : list MessageStatus;
  page_total : nat
}.

Definition of_recipient (phone : string) (d : MessageStatus) : bool :=
  String.eqb (recipientPhone d) phone.

(** [limit] and [offset] are optional: 50 and 0 by default. *)
Definition getByRecipient (phone : string) (limit offset : option nat)
  : M Page := fun w =>
  (Return {| page_data :=
               skip_limit (default 0%nat offset) (default 50%nat limit)
                          (find_newest_first (of_recipient phone) (db w));
             page_total :=
               StatusService.countDocuments (of_recipient phone) (db w) |},
   w).

Definition getByStatus (st : DeliveryStatus) (limit offset : option nat)
  : M Page := fun w =>
  (Return {| page_data :=
               skip_limit (default 0%nat offset) (default 50%nat limit)
                          (find_newest_first (StatusService.has_status st) (db w));
             page_total :=
               StatusService.countDocuments (StatusService.has_status st) (db w) |},
   w).

Definition getFailedMessages (limit offset : option nat) : M Page :=
  getByStatus FAILED (Some (default 50%nat limit)) (Some (default 0%nat offset)).

(** The query [{ createdAt: { $lt: olderThan } }]. *)
Definition older_than (olderThan : Date) (d : MessageStatus) : bool :=
  match createdAt d with
  | Some c => c <? olderThan
  | None => false
  end.

(** [deleteMany] removes the matching documents and reports their
    number. *)
Definition deleteOldStatuses (olderThan : Date) : M nat := fun w =>
  let deletedCount :=
    StatusService.countDocuments (older_than olderThan) (db w) in
  (Return deletedCount,
   add_log LOG ("Deleted " +:+ pretty deletedCount +:+ " old message statuses")
           (set_db (filter (fun kv => older_than olderThan (snd kv) = false)
                           (db w))
                   w)).

End StatusQueries.

(** ** MessageStatusController (message-status.controller.ts) *)

Module StatusController.

(** What [GET :messageId] answers: the record, or the object
    [{ error: 'Message not found', messageId }]. *)
Inductive Answer : Type :=
| Found (d : MessageStatus)
| NotFound (error msgId : string).

Definition getByMessageId (msgId : string) : M Answer :=
  status ← StatusService.getByMessageId msgId ;
  match status with
  | None => mret (NotFound "Message not found" msgId)
  | Some d => mret (Found d)
  end.

Definition getFailedMessages (limit offset : option nat)
  : M StatusQueries.Page :=
  StatusQueries.getFailedMessages (Some (default 50%nat limit))
                                  (Some (default 0%nat offset)).

End StatusController.

(** ** A record as the projection of its history *)

Module Projection.

(** The latest entry of the history with a given status. *)
Definition latest (st : DeliveryStatus) (h : list StatusUpdate)
  : option StatusUpdate :=
  last (filter (fun e => status e = st) h).

(** [currentStatus] is the status of the last entry of a history that
    starts with the pending entry of the creation. *)
Definition current_follows_history (d : MessageStatus) : Prop :=
  status <$> head (statusHistory d) = Some PENDING
  /\ status <$> last (statusHistory d) = Some (currentStatus d).

(** The per-status timestamps and the error fields are those of the
    latest history entry of their status. *)
Definition fields_follow_history (d : MessageStatus) : Prop :=
  sentAt d = timestamp <$> latest SENT (statusHistory d)
  /\ deliveredAt d = timestamp <$> latest DELIVERED (statusHistory d)
  /\ readAt d = timestamp <$> latest READ (statusHistory d)
  /\ failedAt d = timestamp <$> latest FAILED (statusHistory d)
  /\ errorCode d = latest FAILED (statusHistory d) ≫= su_errorCode
  /\ errorMessage d = latest FAILED (statusHistory d) ≫= su_errorMessage.

(** A computation that keeps a property of the stored records. *)
Definition keeps_records (P : MessageStatus -> Prop) {A} (m : M A) : Prop :=
  forall w : World,
    map_Forall (fun _ d => P d) (db w) ->
    map_Forall (fun _ d => P d) (db (snd (m w))).

(** The record [d'] continues [d]: the same message, recipient,
    conversation, metadata and creation time, and a history that has
    that of [d] as its beginning. *)
Definition continues (d d' : MessageStatus) : Prop :=
  messageId d' = messageId d
  /\ recipientPhone d' = recipientPhone d
  /\ conversationId d' = conversationId d
  /\ metadata d' = metadata d
  /\ createdAt d' = createdAt d
  /\ statusHistory d `prefix_of` statusHistory d'.

(** The collection [m'] holds the records of [m], each one continued. *)
Definition grows (m m' : gmap string MessageStatus) : Prop :=
  forall id : string,
    match m !! id, m' !! id with
    | Some d, Some d' => continues d d'
    | None, None => True
    | _, _ => False
    end.

Definition only_grows {A} (m : M A) : Prop :=
  forall w : World,
    store_ok (db w) -> store_ok (db (snd (m w))) /\ grows (db w) (db (snd (m w))).

(** [timestamps: true]: both stamps are set. *)
Definition stamped (d : MessageStatus) : Prop :=
  is_Some (createdAt d) /\ is_Some (updatedAt d).


End Projection.

(** ** The operations of the pipeline, the cleanup included *)

Module Pipeline.

Inductive Operation : Type :=
| Serve (o : Service.Operation)
| Cleanup (olderThan : Date).

Definition run (o : Operation) (w : World) : World :=
  match o with
  | Serve o' => Service.run o' w
  | Cleanup olderThan => snd (StatusQueries.deleteOldStatuses olderThan w)
  end.

Definition run_all (ops : list Operation) (w : World) : World :=
  foldl (fun w o => run o w) w ops.

End Pipeline.

(** ** The exceptions of the send path *)

Module SendErrors.

(** The exception [sendMessage] throws for the error it caught. *)
Definition translated (err : Exn) : Exn :=
  match err with
  | AxiosError _ (Some (status, error_message)) =>
      HttpException
        ("WhatsApp API Error: "
           +:+ (if truthy_opt error_message then default "" error_message
                else "Unknown error"))
        status
  | _ => HttpException "Failed to send WhatsApp message" 500
  end.

End SendErrors.

(** ** The loop of the webhook over a batch of callbacks *)

Module Batch.

(** The call of [updateStatus] the loop makes for one callback. *)
Definition apply_callback (now : Date) (w : World) (s : Webhook.WaStatus)
  : World :=
  snd (StatusService.updateStatus
         now (Webhook.wa_id s) (Webhook.mapWhatsAppStatus (Webhook.wa_status s))
         (Webhook.wa_timestamp s * 1000)
         (Webhook.error_code s) (Webhook.error_message s) w).

End Batch.

(** ** Further concrete inputs *)

Module MoreScenarios.

(** The seeding of "wamid.1", its delivery and a late [sent] callback,
    then a cleanup that is older than the record. *)
Definition history_ops : list Pipeline.Operation :=
  [Pipeline.Serve (Service.Create 1000 "wamid.1" "+221700000000"
                                  (Some "conv-1") None);
   Pipeline.Serve (Service.Update 3000 "wamid.1" DELIVERED 2500 None None);
   Pipeline.Serve (Service.Update 4000 "wamid.1" SENT 2000 None None);
   Pipeline.Cleanup 500].

(** A [failed] callback for "wamid.1" with the provider's error. *)
Definition failed_status : Webhook.WaStatus :=
  Webhook.mkWaStatus
    "wamid.1" "failed" 1700000000 "221700000000"
    (Some [Webhook.mkWaError (Some 131026) (Some "Message undeliverable") None]).

Definition read_status : Webhook.WaStatus :=
  Webhook.mkWaStatus "wamid.1" "read" 1700000100 "221700000000" None.

(** A WebhooksService whose [updateStatus] rejects, and one whose
    [addWebhook] rejects. *)
Definition bookkeeping_fails : Collaborators :=
  {| post_result := fun _ _ _ _ => inr Scenarios.accepted_response;
     addWebhook_result := fun _ _ => None;
     webhooks_updateStatus_result := fun _ _ _ => Some (Error "Webhook not found");
     handleMessages_result := fun _ => None |}.

Definition storage_fails : Collaborators :=
  {| post_result := fun _ _ _ _ => inr Scenarios.accepted_response;
     addWebhook_result := fun _ _ => Some (Error "Storage unavailable");
     webhooks_updateStatus_result := fun _ _ _ => None;
     handleMessages_result := fun _ => None |}.

(** A provider that rejects the recipient with HTTP 400. *)
Definition provider_rejects : Collaborators :=
  {| post_result := fun _ _ _ _ =>
       inl (AxiosError "Request failed with status code 400"
                       (Some (400, Some "Invalid recipient")));
     addWebhook_result := fun _ _ => None;
     webhooks_updateStatus_result := fun _ _ _ => None;
     handleMessages_result := fun _ => None |}.

Definition hello : Whatsapp.SendMessageDto :=
  {| Whatsapp.to := "+221700000000"; Whatsapp.message := "hello";
     Whatsapp.type := None |}.

End MoreScenarios.

(** * Properties *)

(** ** Running computations *)

Section Running.

Lemma bind_run {A B} (m : M A) (f : A -> M B) (w : World) :
  (m ≫= f) w =
    match m w with
    | (Return a, w') => f a w'
    | (Throw e, w') => (Throw e, w')
    end.
Proof. reflexivity. Qed.

Lemma bind_return {A B} (m : M A) (f : A -> M B) (w w' : World) (a : A) :
  m w = (Return a, w') -> (m ≫= f) w = f a w'.
Proof. intros H. rewrite bind_run, H. reflexivity. Qed.

Lemma bind_throw {A B} (m : M A) (f : A -> M B) (w w' : World) (e : Exn) :
  m w = (Throw e, w') -> (m ≫= f) w = (Throw e, w').
Proof. intros H. rewrite bind_run, H. reflexivity. Qed.

Lemma logger_run (l : LogLevel) (t : string) (w : World) :
  logger l t w = (Return tt, add_log l t w).
Proof. reflexivity. Qed.

End Running.

(** ** Buffers, strings and hexadecimal digests *)

Module CryptoFacts.
Import Crypto.

Lemma Buffer_eqb_eq (a b : Buffer) : Buffer_eqb a b = true <-> a = b.
Proof.
  revert b. induction a as [|x a IH]; intros [|y b]; simpl; try easy.
  rewrite andb_true_iff, IH. split.
  - intros [Hxy ->]. apply Byte.byte_dec_bl in Hxy. now subst.
  - intros [= -> ->]. split; [apply Byte.byte_dec_lb|]; reflexivity.
Qed.

Lemma Buffer_eqb_length (a b : Buffer) :
  Buffer_eqb a b = true -> length a = length b.
Proof. intros H. apply Buffer_eqb_eq in H. now subst. Qed.

Lemma Buffer_from_inj (s t : string) : Buffer_from s = Buffer_from t -> s = t.
Proof.
  unfold Buffer_from. intros H.
  rewrite <- (string_of_list_byte_of_string s),
          <- (string_of_list_byte_of_string t).
  now rewrite H.
Qed.

(** The comparison of [timingSafeEqual], seen on strings. *)
Lemma timingSafeEqual_strings (s t : string) :
  match timingSafeEqual (Buffer_from s) (Buffer_from t) with
  | Return b => b = bool_decide (s = t)
  | Throw _ => s <> t
  end.
Proof.
  unfold timingSafeEqual.
  destruct (Nat.eqb_spec (length (Buffer_from s)) (length (Buffer_from t)))
    as [Hlen|Hlen].
  - destruct (Buffer_eqb (Buffer_from s) (Buffer_from t)) eqn:E.
    + apply Buffer_eqb_eq, Buffer_from_inj in E. subst.
      now rewrite bool_decide_eq_true_2.
    + rewrite bool_decide_eq_false_2; [reflexivity|].
      intros ->. assert (Buffer_eqb (Buffer_from t) (Buffer_from t) = true)
        by now apply Buffer_eqb_eq. congruence.
  - intros ->. now apply Hlen.
Qed.

Lemma unhex_hex_digit (n : Z) : 0 <= n < 16 -> unhex_digit (hex_digit n) = n.
Proof.
  intros H.
  assert (forallb (fun k => unhex_digit (hex_digit (Z.of_nat k)) =? Z.of_nat k)
                  (seq 0 16) = true) as Hall by reflexivity.
  rewrite forallb_forall in Hall.
  specialize (Hall (Z.to_nat n)).
  rewrite Z2Nat.id in Hall by lia.
  apply Z.eqb_eq, Hall, in_seq. lia.
Qed.

Lemma byte_to_Z_range (b : byte) : 0 <= byte_to_Z b < 256.
Proof.
  unfold byte_to_Z. pose proof (Byte.to_N_bounded b) as H.
  change 256 with (Z.of_N 256). lia.
Qed.

Lemma byte_to_Z_inj (a b : byte) : byte_to_Z a = byte_to_Z b -> a = b.
Proof.
  unfold byte_to_Z. intros H. apply N2Z.inj in H.
  assert (Byte.of_N (Byte.to_N a) = Byte.of_N (Byte.to_N b)) as E
    by now rewrite H.
  rewrite !Byte.of_to_N in E. now injection E.
Qed.

Lemma hex_inj (a b : Buffer) : hex a = hex b -> a = b.
Proof.
  revert b. induction a as [|x a IH]; intros [|y b]; simpl; try easy.
  intros [= Hhi Hlo Hrest]. f_equal; [|now apply IH].
  pose proof (byte_to_Z_range x) as Hx. pose proof (byte_to_Z_range y) as Hy.
  apply (f_equal unhex_digit) in Hhi, Hlo.
  rewrite !unhex_hex_digit in Hhi, Hlo
    by (try apply Z.mod_pos_bound; try (split; [apply Z.div_pos|apply Z.div_lt_upper_bound]); lia).
  apply byte_to_Z_inj.
  rewrite (Z.div_mod (byte_to_Z x) 16), (Z.div_mod (byte_to_Z y) 16) by lia.
  now rewrite Hhi, Hlo.
Qed.

End CryptoFacts.

(** ** The signature guard *)

Module GuardFacts.
Import Crypto CryptoFacts Guard.

#[local] Arguments hmac_sha256 : simpl never.
#[local] Arguments expectedSignature : simpl never.
#[local] Arguments Buffer_from : simpl never.

Lemma verifySignature_run (S : string) (P : RawBody) (sig : string) (w : World) :
  verifySignature S P sig w =
    if (length (Buffer_from sig)
        =? length (Buffer_from (expectedSignature S P)))%nat
    then (Return (Buffer_eqb (Buffer_from sig)
                             (Buffer_from (expectedSignature S P))), w)
    else (Return false, add_log ERROR length_error w).
Proof.
  unfold verifySignature, try_catch, timingSafeEqual.
  destruct (_ =? _)%nat; reflexivity.
Qed.

Lemma verifySignature_decides (S : string) (P : RawBody) (sig : string)
      (w : World) :
  fst (verifySignature S P sig w)
  = Return (bool_decide (sig = expectedSignature S P)).
Proof.
  pose proof (timingSafeEqual_strings sig (expectedSignature S P)) as H.
  unfold verifySignature, try_catch.
  destruct (timingSafeEqual _ _) as [b|e]; simpl.
  - now subst.
  - now rewrite bool_decide_eq_false_2.
Qed.

Lemma expectedSignature_truthy (S : string) (P : RawBody) :
  truthy (expectedSignature S P) = true.
Proof. reflexivity. Qed.

Lemma expectedSignature_inj (S : string) (P P' : RawBody) :
  expectedSignature S P' = expectedSignature S P ->
  hmac_sha256 (Buffer_from S) (payload_bytes P')
  = hmac_sha256 (Buffer_from S) (payload_bytes P).
Proof.
  unfold expectedSignature. intros H. apply hex_inj.
  simpl in H. now injection H.
Qed.

(** With a secret and a raw body, the guard returns [true] when the
    header is the expected signature, and throws otherwise. *)
Lemma canActivate_with_secret (S : string) (P : RawBody)
      (h : option string) (w : World) :
  truthy S = true -> truthy_body (Some P) = true ->
  fst (canActivate S (mkRequest h (Some P)) w)
  = if bool_decide (h = Some (expectedSignature S P))
    then Return true
    else Throw (UnauthorizedException
                  (if truthy_opt h then "Invalid webhook signature"
                   else "Missing webhook signature")).
Proof.
  intros HS HP. unfold canActivate. rewrite HS. cbn [negb].
  cbn [x_hub_signature_256 rawBody].
  destruct (truthy_opt h) eqn:Hh; cbn [negb].
  - rewrite HP. cbn [negb]. destruct h as [sig|]; [|discriminate].
    rewrite bind_run.
    pose proof (verifySignature_decides S P sig w) as Hv.
    destruct (verifySignature S P sig w) as [[b|e] w']; simpl in Hv;
      [|discriminate].
    injection Hv as ->.
    destruct (decide (sig = expectedSignature S P)) as [->|Hne].
    + rewrite !bool_decide_eq_true_2 by reflexivity. reflexivity.
    + rewrite !bool_decide_eq_false_2 by congruence. reflexivity.
  - rewrite bool_decide_eq_false_2; [reflexivity|].
    intros ->. cbn in Hh. now rewrite expectedSignature_truthy in Hh.
Qed.

Lemma canActivate_without_secret (req : Request) (w : World) :
  canActivate "" req w
  = (Return true,
     add_log WARN
       "WHATSAPP_APP_SECRET not configured - webhook signature verification skipped"
       w).
Proof. reflexivity. Qed.

End GuardFacts.

(** The guard on the inputs of its test suite, and the digests on
    published vectors. *)

Module GuardExamples.
Import Crypto Guard Scenarios.

(** RFC 4231, test case 2. *)
Example hmac_sha256_rfc4231 :
  hex (hmac_sha256 (Buffer_from "Jefe")
                   (Buffer_from "what do ya want for nothing?"))
  = "5bdcc146bf60754e6a042426089575c75a003f089d2739839dec58b964ec3843".
Proof. vm_compute. reflexivity. Qed.

Example sha256_abc :
  hex (sha256 (Buffer_from "abc"))
  = "ba7816bf8f01cfea414140de5dae2223b00361a396177a9cb410ff61f20015ad".
Proof. vm_compute. reflexivity. Qed.

Example expectedSignature_payload :
  expectedSignature testAppSecret payload
  = "sha256=72f6a2ed8576d82f410463670a59a3b6f1c09024e2900ab0e4acc7c9a0b98424".
Proof. vm_compute. reflexivity. Qed.

(** 'should throw UnauthorizedException for invalid signature': the
    header is shorter than the expected one, [timingSafeEqual] throws,
    the guard answers with its own exception. *)
Example invalid_signature_rejected :
  canActivate testAppSecret
              (mkRequest (Some "sha256=invalid-signature-hash") (Some payload))
              empty_world
  = (Throw (UnauthorizedException "Invalid webhook signature"),
     add_log ERROR "Invalid webhook signature"
             (add_log ERROR length_error empty_world)).
Proof. vm_compute. reflexivity. Qed.

Example empty_buffer_body_is_verified :
  fst (canActivate testAppSecret
         (mkRequest (Some (expectedSignature testAppSecret (BodyBuffer [])))
                    (Some (BodyBuffer [])))
         empty_world)
  = Return true.
Proof. vm_compute. reflexivity. Qed.

(** The unaltered bytes of "payload" are accepted; flipping the lowest bit
    of any of its seven bytes, or any bit of its first byte, is rejected. *)
Example single_bit_alterations_rejected :
  accepts_with_signature_of_payload (Buffer_from "payload") = true
  /\ forallb (fun i =>
                negb (accepts_with_signature_of_payload
                        (flip_bit i 0 (Buffer_from "payload"))))
             (seq 0 7)
     = true
  /\ forallb (fun k =>
                negb (accepts_with_signature_of_payload
                        (flip_bit 0 k (Buffer_from "payload"))))
             (seq 0 8)
     = true.
Proof. vm_compute. repeat split; reflexivity. Qed.

End GuardExamples.

(** ** The events gateway *)

Module GatewayFacts.
Import Gateway.

Lemma emitMessageStatusUpdate_run (d : StatusEvent) (w : World) :
  emitMessageStatusUpdate d w = (Return tt, publish d w).
Proof.
  unfold emitMessageStatusUpdate, publish, delivery_order.
  unfold mbind, M_bind, mret, M_ret, emit, add_emission.
  destruct (ev_conversationId d) as [c|]; [destruct c as [|a c]|];
    cbn; rewrite <- ?app_assoc; reflexivity.
Qed.

End GatewayFacts.

(** ** The message-status service *)

Module StatusFacts.
Import StatusService.

Lemma validate_apply_update (d : MessageStatus) st ts code msg :
  validate (apply_update d st ts code msg) = validate d.
Proof. reflexivity. Qed.

Lemma validate_stamp (isNew : bool) (now : Date) (d : MessageStatus) :
  validate (stamp isNew now d) = validate d.
Proof. reflexivity. Qed.

Lemma store_ok_lookup (m : gmap string MessageStatus) (id : string)
      (d : MessageStatus) :
  store_ok m -> m !! id = Some d -> messageId d = id /\ validate d = None.
Proof. intros Hok Hd. exact (Hok id d Hd). Qed.

Lemma store_ok_empty : store_ok ∅.
Proof. apply map_Forall_empty. Qed.

Lemma store_ok_insert (m : gmap string MessageStatus) (d : MessageStatus) :
  store_ok m -> validate d = None -> store_ok (<[messageId d := d]> m).
Proof. intros Hok Hd. apply map_Forall_insert_2; [split|]; done. Qed.

(** No record under the message id: a warning, and nothing else. *)
Lemma updateStatus_orphan now (id : string) st ts code msg (w : World) :
  db w !! id = None ->
  updateStatus now id st ts code msg w
  = (Return None, add_log WARN ("Message status not found for " +:+ id) w).
Proof.
  intros Hnone. unfold updateStatus, findOne.
  rewrite bind_run, Hnone. reflexivity.
Qed.

(** The record [updateStatus] writes for a stored record [d] that
    satisfies the schema, and the world it leaves. *)
Lemma updateStatus_valid now (id : string) st ts code msg (w : World)
      (d : MessageStatus) :
  db w !! id = Some d -> validate d = None ->
  updateStatus now id st ts code msg w
  = (Return (Some (stamp false now (apply_update d st ts code msg))),
     add_log DEBUG
       ("Updated message " +:+ id +:+ " status to " +:+ DeliveryStatus_value st)
       (Gateway.publish (status_event d id st ts code msg)
          (set_db (<[messageId d := stamp false now (apply_update d st ts code msg)]>
                     (db w))
                  w))).
Proof.
  intros Hd Hval. unfold updateStatus, findOne.
  rewrite bind_run, Hd.
  rewrite bind_run. unfold save at 1.
  rewrite validate_apply_update, Hval. cbn [andb].
  change (messageId (apply_update d st ts code msg)) with (messageId d).
  rewrite bind_run, GatewayFacts.emitMessageStatusUpdate_run.
  reflexivity.
Qed.

Lemma updateStatus_found now (id : string) st ts code msg (w : World)
      (d : MessageStatus) :
  db w !! id = Some d -> messageId d = id -> validate d = None ->
  updateStatus now id st ts code msg w
  = (Return (Some (stamp false now (apply_update d st ts code msg))),
     add_log DEBUG
       ("Updated message " +:+ id +:+ " status to " +:+ DeliveryStatus_value st)
       (Gateway.publish (status_event d id st ts code msg)
          (set_db (<[id := stamp false now (apply_update d st ts code msg)]> (db w))
                  w))).
Proof.
  intros Hd Hid Hval.
  rewrite (updateStatus_valid _ _ _ _ _ _ _ _ Hd Hval). now rewrite Hid.
Qed.

(** A stored record that fails validation: [save] throws, nothing is
    written and nothing is published. *)
Lemma updateStatus_invalid now (id : string) st ts code msg (w : World)
      (d : MessageStatus) (path : string) :
  db w !! id = Some d -> validate d = Some path ->
  updateStatus now id st ts code msg w
  = (Throw (ValidationError (validation_message path)), w).
Proof.
  intros Hd Hval. unfold updateStatus, findOne.
  rewrite bind_run, Hd.
  rewrite bind_run. unfold save at 1.
  rewrite validate_apply_update, Hval. reflexivity.
Qed.

Lemma updateStatus_store_ok now (id : string) st ts code msg (w : World) :
  store_ok (db w) -> store_ok (db (snd (updateStatus now id st ts code msg w))).
Proof.
  intros Hok. destruct (db w !! id) as [d|] eqn:Hd.
  - destruct (store_ok_lookup _ _ _ Hok Hd) as [Hid Hval].
    rewrite (updateStatus_found _ _ _ _ _ _ _ _ Hd Hid Hval). cbn.
    rewrite <- Hid at 1.
    change (messageId d)
      with (messageId (stamp false now (apply_update d st ts code msg))).
    apply store_ok_insert; [assumption|].
    now rewrite validate_stamp, validate_apply_update.
  - now rewrite (updateStatus_orphan _ _ _ _ _ _ _ Hd).
Qed.

End StatusFacts.

(** ** Seeding a record and sequences of status updates *)

Module SequenceFacts.
Import StatusService StatusFacts.

Lemma createMessageStatus_fresh now (id phone : string) (conv : option string)
      (meta : option Metadata) (w : World) :
  truthy id = true -> truthy phone = true -> truthy_opt conv = true ->
  db w !! id = None ->
  let d0 :=
    {| messageId := id; recipientPhone := phone; conversationId := conv;
       currentStatus := PENDING;
       statusHistory := [mkStatusUpdate PENDING now None None];
       sentAt := None; deliveredAt := None; readAt := None; failedAt := None;
       errorCode := None; errorMessage := None; metadata := meta;
       createdAt := Some now; updatedAt := Some now |} in
  createMessageStatus now id phone conv meta w
  = (Return d0,
     add_log DEBUG ("Created message status for " +:+ id)
             (set_db (<[id := d0]> (db w)) w)).
Proof.
  intros Hid Hphone Hconv Hfresh d0.
  unfold createMessageStatus. rewrite bind_run. unfold save at 1.
  unfold validate. cbn [messageId recipientPhone conversationId].
  rewrite Hid, Hphone, Hconv. cbn [negb andb].
  rewrite Hfresh. rewrite bool_decide_eq_false_2 by (intros [? ?]; discriminate).
  reflexivity.
Qed.

Lemma createMessageStatus_store_ok now (id phone : string)
      (conv : option string) (meta : option Metadata) (w : World) :
  store_ok (db w) ->
  store_ok (db (snd (createMessageStatus now id phone conv meta w))).
Proof.
  intros Hok. unfold createMessageStatus. rewrite bind_run. unfold save at 1.
  match goal with |- context [validate ?d] => destruct (validate d) eqn:Hval end;
    [assumption|].
  match goal with |- context [if ?b then _ else _] => destruct b end;
    [assumption|].
  cbn. apply map_Forall_insert_2; [split; [reflexivity|exact Hval]|exact Hok].
Qed.

Lemma seeded_world_ok : store_ok (db Scenarios.seeded_world).
Proof. apply createMessageStatus_store_ok, store_ok_empty. Qed.

Lemma delivered_world_ok : store_ok (db Scenarios.delivered_world).
Proof. apply updateStatus_store_ok, seeded_world_ok. Qed.

(** One call on a stored record: the record afterwards. *)
Lemma applyStatus_step (id : string) (c : StatusCall) (w : World)
      (d : MessageStatus) :
  store_ok (db w) -> db w !! id = Some d ->
  db (snd (applyStatus id c w)) !! id
  = Some (stamp false (call_now c)
                (apply_update d (call_status c) (call_timestamp c)
                              (call_errorCode c) (call_errorMessage c))).
Proof.
  intros Hok Hd. destruct (store_ok_lookup _ _ _ Hok Hd) as [Hid Hval].
  unfold applyStatus.
  rewrite (updateStatus_found _ _ _ _ _ _ _ _ Hd Hid Hval). cbn.
  apply lookup_insert_eq.
Qed.

Lemma applyAll_app (id : string) (cs1 cs2 : list StatusCall) (w : World) :
  applyAll id (cs1 ++ cs2) w = applyAll id cs2 (applyAll id cs1 w).
Proof. revert w. induction cs1 as [|c cs1 IH]; intros w; cbn; auto. Qed.

Lemma applyAll_store_ok (id : string) (cs : list StatusCall) (w : World) :
  store_ok (db w) -> store_ok (db (applyAll id cs w)).
Proof.
  revert w. induction cs as [|c cs IH]; intros w Hok; cbn; [assumption|].
  apply IH, updateStatus_store_ok, Hok.
Qed.

(** After any sequence of calls the record holds the whole history. *)
Lemma applyAll_history (id : string) (cs : list StatusCall) (w : World)
      (d : MessageStatus) :
  store_ok (db w) -> db w !! id = Some d ->
  exists d', db (applyAll id cs w) !! id = Some d'
             /\ statusHistory d' = statusHistory d ++ map history_entry cs.
Proof.
  revert w d. induction cs as [|c cs IH]; intros w d Hok Hd; cbn.
  - exists d. now rewrite app_nil_r.
  - pose proof (applyStatus_step id c w d Hok Hd) as Hstep.
    destruct (IH _ _ (updateStatus_store_ok _ _ _ _ _ _ _ Hok) Hstep)
      as (d' & Hd' & Hhist).
    exists d'. split; [exact Hd'|].
    rewrite Hhist. cbn. now rewrite <- app_assoc.
Qed.

End SequenceFacts.

(** ** The webhook controller *)

Module WebhookFacts.
Import Webhook.

Lemma mapWhatsAppStatus_cases (s : string) :
  mapWhatsAppStatus s
  = if decide (s = "sent") then SENT
    else if decide (s = "delivered") then DELIVERED
    else if decide (s = "read") then READ
    else if decide (s = "failed") then FAILED
    else PENDING.
Proof.
  unfold mapWhatsAppStatus.
  repeat case_decide; subst; try reflexivity.
  repeat match goal with
         | H : _ <> _ |- _ => apply String.eqb_neq in H; rewrite H
         end.
  reflexivity.
Qed.

Lemma call_unit_resolves (c : Call) (r : list Call -> option Exn) (w : World) :
  r (calls w) = None -> call_unit c r w = (Return tt, record_call c w).
Proof. intros H. unfold call_unit. now rewrite H. Qed.

(** The loop over callbacks that match no record: one warning and one
    call to the WebhooksService per callback, and nothing else. *)
Lemma for_statuses_orphans (ext : Collaborators) (now : Date)
      (statuses : list WaStatus) (w : World) :
  collaborators_resolve ext ->
  Forall (fun s => db w !! wa_id s = None) statuses ->
  for_statuses ext now statuses w
  = (Return tt,
     {| db := db w; emitted := emitted w;
        logs := logs w ++ map orphan_warning statuses;
        calls := calls w ++ map status_call statuses |}).
Proof.
  intros (_ & Hupd & _) Horph. revert w Horph.
  induction statuses as [|s rest IH]; intros w Horph; cbn [for_statuses map].
  - rewrite !app_nil_r. now destruct w.
  - apply Forall_cons in Horph as [Hs Hrest].
    unfold process_status. rewrite !bind_run.
    rewrite (StatusFacts.updateStatus_orphan _ _ _ _ _ _ _ Hs).
    rewrite call_unit_resolves by apply Hupd.
    rewrite IH by exact Hrest. cbn.
    rewrite <- !app_assoc. reflexivity.
Qed.

(** Whatever the webhook and the collaborators, the handler returns a
    body: every exception raised while processing is caught. *)
Lemma receiveWebhook_returns (ext : Collaborators) (now : Date)
      (webhookData : WebhookData) (w : World) :
  exists r : Response, fst (receiveWebhook ext now webhookData w) = Return r.
Proof.
  unfold receiveWebhook. rewrite bind_run, logger_run.
  unfold try_catch.
  match goal with |- context [match ?m ?w0 with _ => _ end] =>
    destruct (m w0) as [[r|e] w'] end; cbn; eauto.
Qed.

End WebhookFacts.

(** ** The send path and the collection of delivery records *)

Module FrameFacts.
Import Whatsapp.

Lemma preserves_db_ret {A} (a : A) : preserves_db (mret a).
Proof. intros w. reflexivity. Qed.

Lemma preserves_db_throw {A} (e : Exn) : preserves_db (@throw A e).
Proof. intros w. reflexivity. Qed.

Lemma preserves_db_logger (l : LogLevel) (t : string) : preserves_db (logger l t).
Proof. intros w. reflexivity. Qed.

Lemma preserves_db_bind {A B} (m : M A) (f : A -> M B) :
  preserves_db m -> (forall a, preserves_db (f a)) -> preserves_db (m ≫= f).
Proof.
  intros Hm Hf w. rewrite bind_run. specialize (Hm w).
  destruct (m w) as [[a|e] w']; cbn in *; [rewrite Hf|]; exact Hm.
Qed.

Lemma preserves_db_try_catch {A} (body : M A) (handler : Exn -> M A) :
  preserves_db body -> (forall e, preserves_db (handler e)) ->
  preserves_db (try_catch body handler).
Proof.
  intros Hb Hh w. unfold try_catch. specialize (Hb w).
  destruct (body w) as [[a|e] w']; cbn in *; [|rewrite Hh]; exact Hb.
Qed.

Lemma preserves_db_call_unit (c : Call) (r : list Call -> option Exn) :
  preserves_db (call_unit c r).
Proof. intros w. unfold call_unit. destruct (r (calls w)); reflexivity. Qed.

Lemma preserves_db_post (ext : Collaborators) (to_ type_ body : string) :
  preserves_db (post ext to_ type_ body).
Proof. intros w. unfold post. destruct (post_result _ _ _ _ _); reflexivity. Qed.

Create HintDb frame.

#[local] Hint Resolve preserves_db_ret preserves_db_throw preserves_db_logger
  preserves_db_call_unit preserves_db_post : frame.

Ltac frame :=
  repeat first
    [ solve [auto with frame]
    | apply preserves_db_bind; [|intros ?]
    | apply preserves_db_try_catch; [|intros ?] ].

Lemma sendMessage_preserves_db (ext : Collaborators) (dto : SendMessageDto) :
  preserves_db (sendMessage ext dto).
Proof.
  unfold sendMessage, addWebhook. frame.
  destruct e as [| | | | |m [[st em]|]|]; frame.
Qed.

Lemma sendTextMessage_preserves_db (ext : Collaborators) (to_ text_ : string) :
  preserves_db (sendTextMessage ext to_ text_).
Proof. apply sendMessage_preserves_db. Qed.

#[local] Hint Resolve sendMessage_preserves_db sendTextMessage_preserves_db : frame.

Lemma process_SEND_TEXT_preserves_db (ext : Collaborators) (job : Job) :
  preserves_db (process_SEND_TEXT ext job).
Proof. unfold process_SEND_TEXT, processTextMessage. frame. Qed.

(** A send the provider accepts returns the provider's answer. *)
Lemma sendMessage_success (ext : Collaborators) (dto : SendMessageDto)
      (w : World) (r : WhatsappApiResponse) :
  post_result ext (calls w) (to dto) (default "text" (type dto)) (message dto)
  = inr r ->
  (forall cs, addWebhook_result ext cs "message_sent" = None) ->
  fst (sendMessage ext dto w) = Return r.
Proof.
  intros Hpost Hadd. unfold sendMessage, try_catch.
  rewrite bind_run, logger_run. rewrite bind_run.
  unfold post at 1. cbn [calls add_log]. rewrite Hpost.
  rewrite bind_run. unfold addWebhook, call_unit. rewrite Hadd.
  reflexivity.
Qed.

End FrameFacts.

(** ** Statistics *)

Module StatisticsFacts.
Import JsNumber StatusService.





End StatisticsFacts.

(** ** The collection stays well formed *)

Module InvariantFacts.
Import StatusFacts SequenceFacts FrameFacts.

Lemma keeps_store_ok_preserves_db {A} (m : M A) :
  preserves_db m -> keeps_store_ok m.
Proof. intros Hm w Hok. now rewrite Hm. Qed.

Lemma keeps_store_ok_bind {A B} (m : M A) (f : A -> M B) :
  keeps_store_ok m -> (forall a, keeps_store_ok (f a)) ->
  keeps_store_ok (m ≫= f).
Proof.
  intros Hm Hf w Hok. rewrite bind_run. specialize (Hm w Hok).
  destruct (m w) as [[a|e] w']; cbn in *; [apply Hf|]; exact Hm.
Qed.

Lemma keeps_store_ok_try_catch {A} (body : M A) (handler : Exn -> M A) :
  keeps_store_ok body -> (forall e, keeps_store_ok (handler e)) ->
  keeps_store_ok (try_catch body handler).
Proof.
  intros Hb Hh w Hok. unfold try_catch. specialize (Hb w Hok).
  destruct (body w) as [[a|e] w']; cbn in *; [|apply Hh]; exact Hb.
Qed.

Lemma keeps_store_ok_updateStatus now id st ts code msg :
  keeps_store_ok (StatusService.updateStatus now id st ts code msg).
Proof. intros w. apply updateStatus_store_ok. Qed.

Lemma keeps_store_ok_for_statuses (ext : Collaborators) (now : Date)
      (statuses : list Webhook.WaStatus) :
  keeps_store_ok (Webhook.for_statuses ext now statuses).
Proof.
  induction statuses as [|s rest IH]; cbn [Webhook.for_statuses].
  - apply keeps_store_ok_preserves_db, preserves_db_ret.
  - apply keeps_store_ok_bind; [|intros _; exact IH].
    unfold Webhook.process_status.
    apply keeps_store_ok_bind; [apply keeps_store_ok_updateStatus|].
    intros _. apply keeps_store_ok_preserves_db, preserves_db_call_unit.
Qed.

Lemma keeps_store_ok_receiveWebhook (ext : Collaborators) (now : Date)
      (webhookData : Webhook.WebhookData) :
  keeps_store_ok (Webhook.receiveWebhook ext now webhookData).
Proof.
  unfold Webhook.receiveWebhook, Whatsapp.addWebhook.
  apply keeps_store_ok_bind;
    [apply keeps_store_ok_preserves_db, preserves_db_logger|intros _].
  apply keeps_store_ok_try_catch.
  - destruct (Webhook.first_value webhookData) as [v|];
      [|apply keeps_store_ok_preserves_db, preserves_db_ret].
    apply keeps_store_ok_bind;
      [apply keeps_store_ok_preserves_db, preserves_db_call_unit|intros _].
    apply keeps_store_ok_bind; [|intros _].
    { case_bool_decide; apply keeps_store_ok_preserves_db;
        [apply preserves_db_call_unit|apply preserves_db_ret]. }
    apply keeps_store_ok_bind;
      [|intros _; apply keeps_store_ok_preserves_db, preserves_db_ret].
    destruct (Webhook.wa_statuses v) as [statuses|];
      [|apply keeps_store_ok_preserves_db, preserves_db_ret].
    apply keeps_store_ok_bind;
      [apply keeps_store_ok_preserves_db, preserves_db_logger|intros _].
    apply keeps_store_ok_for_statuses.
  - intros e. apply keeps_store_ok_preserves_db.
    apply preserves_db_bind; [apply preserves_db_logger|intros _].
    apply preserves_db_ret.
Qed.

(** Every world the service reaches from the empty one holds a well-formed
    collection: each record is stored under its own [messageId] and
    satisfies the schema. *)
Lemma run_all_store_ok (ops : list Service.Operation) (w : World) :
  store_ok (db w) -> store_ok (db (Service.run_all ops w)).
Proof.
  unfold Service.run_all. revert w.
  induction ops as [|o ops IH]; intros w Hok; cbn [foldl]; [assumption|].
  apply IH. destruct o; cbn [Service.run].
  - now apply createMessageStatus_store_ok.
  - now apply updateStatus_store_ok.
  - now apply keeps_store_ok_receiveWebhook.
  - now rewrite process_SEND_TEXT_preserves_db.
Qed.

Lemma reachable_store_ok (ops : list Service.Operation) :
  store_ok (db (Service.run_all ops Scenarios.empty_world)).
Proof. apply run_all_store_ok, store_ok_empty. Qed.

End InvariantFacts.

(** ** The seeding operation and the send path *)

Module SeedingFacts.

(** [createMessageStatus], called with a message
    id that is not empty and not yet in the collection, a recipient and a
    conversation id that are not empty, creates the delivery record of
    that message id, with [currentStatus] pending and a history of one
    pending entry, and touches no other record. The send path does not call
    it: [sendMessage], [sendTextMessage] and the text job leave the
    collection of delivery records as it was, for every answer of the
    provider; a send the provider accepts returns the provider's answer. *)
Lemma seeding_is_apart_from_sending
        (now : Date) (id phone : string) (conv : option string)
        (meta : option Metadata) (w : World)
        (Hid : truthy id = true) (Hphone : truthy phone = true)
        (Hconv : truthy_opt conv = true) (Hfresh : db w !! id = None) :
  (exists d : MessageStatus,
      fst (StatusService.createMessageStatus now id phone conv meta w) = Return d
      /\ db (snd (StatusService.createMessageStatus now id phone conv meta w)) !! id
         = Some d
      /\ messageId d = id
      /\ currentStatus d = PENDING
      /\ statusHistory d = [mkStatusUpdate PENDING now None None]
      /\ (forall id' : string,
             id' <> id ->
             db (snd (StatusService.createMessageStatus now id phone conv meta w))
                !! id'
             = db w !! id'))
  /\ (forall (ext : Collaborators) (dto : Whatsapp.SendMessageDto) (w0 : World),
         db (snd (Whatsapp.sendMessage ext dto w0)) = db w0)
  /\ (forall (ext : Collaborators) (to_ text_ : string) (w0 : World),
         db (snd (Whatsapp.sendTextMessage ext to_ text_ w0)) = db w0)
  /\ (forall (ext : Collaborators) (job : Whatsapp.Job) (w0 : World),
         db (snd (Whatsapp.process_SEND_TEXT ext job w0)) = db w0)
  /\ (forall (ext : Collaborators) (dto : Whatsapp.SendMessageDto) (w0 : World)
             (r : WhatsappApiResponse),
         post_result ext (calls w0) (Whatsapp.to dto)
                     (default "text" (Whatsapp.type dto)) (Whatsapp.message dto)
         = inr r ->
         (forall cs, addWebhook_result ext cs "message_sent" = None) ->
         fst (Whatsapp.sendMessage ext dto w0) = Return r).
Proof.
  split; [|split; [|split; [|split]]].
  - rewrite (SequenceFacts.createMessageStatus_fresh
               now id phone conv meta w Hid Hphone Hconv Hfresh).
    cbn. eexists. split; [reflexivity|]. split; [apply lookup_insert_eq|].
    repeat (split; [reflexivity|]).
    intros id' Hne. now apply lookup_insert_ne.
  - intros ext dto w0. apply FrameFacts.sendMessage_preserves_db.
  - intros ext to_ text_ w0. apply FrameFacts.sendTextMessage_preserves_db.
  - intros ext job w0. apply FrameFacts.process_SEND_TEXT_preserves_db.
  - intros ext dto w0 r. apply FrameFacts.sendMessage_success.
Qed.

Example seeding_of_wamid_1 :
  exists d : MessageStatus,
    db Scenarios.seeded_world !! "wamid.1" = Some d
    /\ currentStatus d = PENDING
    /\ map status (statusHistory d) = [PENDING].
Proof.
  destruct (seeding_is_apart_from_sending
              1000 "wamid.1" "+221700000000" (Some "conv-1") None
              Scenarios.empty_world eq_refl eq_refl eq_refl eq_refl)
    as [(d & _ & Hd & _ & Hcur & Hhist & _) _].
  exists d. split; [exact Hd|]. split; [exact Hcur|].
  now rewrite Hhist.
Qed.

End SeedingFacts.

(** * The properties of the specification *)

(** C1, the counterexample. The record of "wamid.1" is [delivered]; the
    late [sent] callback, which precedes [delivered] in the canonical
    ordering, moves [currentStatus] back to [sent]. *)
Lemma updateStatus_regresses_currentStatus :
  currentStatus <$> (db Scenarios.delivered_world !! "wamid.1") = Some DELIVERED
  /\ StatusService.precedes SENT DELIVERED = true
  /\ currentStatus
       <$> (db (snd (StatusService.applyStatus "wamid.1" Scenarios.late_sent
                                               Scenarios.delivered_world))
               !! "wamid.1")
     = Some SENT.
Proof. vm_compute. repeat split; reflexivity. Qed.

(** C1, as the code has it. Every [updateStatus] call on an existing record
    appends its history entry and assigns its status to [currentStatus],
    whether or not that status precedes the previous one: after any
    non-empty sequence of calls on a message id, [currentStatus] is the
    status of the last call and [statusHistory] has grown by one entry per
    call, in call order. *)
Theorem currentStatus_follows_last_call
        (id : string) (cs : list StatusService.StatusCall)
        (c : StatusService.StatusCall) (w : World) (d : MessageStatus)
        (Hok : store_ok (db w)) (Hd : db w !! id = Some d) :
  exists d' : MessageStatus,
    db (StatusService.applyAll id (cs ++ [c]) w) !! id = Some d'
    /\ currentStatus d' = StatusService.call_status c
    /\ statusHistory d'
       = statusHistory d ++ map StatusService.history_entry (cs ++ [c]).
Proof.
  rewrite SequenceFacts.applyAll_app.
  destruct (SequenceFacts.applyAll_history id cs w d Hok Hd) as (d1 & Hd1 & Hh1).
  pose proof (SequenceFacts.applyAll_store_ok id cs w Hok) as Hok1.
  pose proof (SequenceFacts.applyStatus_step id c _ d1 Hok1 Hd1) as Hstep.
  eexists. split; [exact Hstep|]. split; [reflexivity|].
  cbn. rewrite Hh1, map_app, <- app_assoc. reflexivity.
Qed.

Lemma currentStatus_follows_last_call_witness :
  exists d' : MessageStatus,
    db (StatusService.applyAll "wamid.1" ([] ++ [Scenarios.late_sent])
                               Scenarios.delivered_world) !! "wamid.1"
    = Some d'
    /\ currentStatus d' = SENT
    /\ length (statusHistory d') = 3%nat.
Proof.
  destruct (db Scenarios.delivered_world !! "wamid.1") as [d|] eqn:Hd;
    [|exfalso; vm_compute in Hd; discriminate Hd].
  destruct (currentStatus_follows_last_call
              "wamid.1" [] Scenarios.late_sent Scenarios.delivered_world d
              SequenceFacts.delivered_world_ok Hd) as (d' & Hd' & Hcur & Hhist).
  exists d'. split; [exact Hd'|]. split; [exact Hcur|].
  rewrite Hhist. vm_compute in Hd. injection Hd as <-. reflexivity.
Defined.

(** C2. A text job that the provider accepts with the message id
    "wamid.1", processed on an empty collection: the job returns the
    provider's answer and the outgoing webhook is recorded, but no delivery
    record is created. The collection is still empty, nothing is keyed by
    "wamid.1", and a status callback for "wamid.1" takes the not-found
    path of [updateStatus]. The record with [currentStatus] pending that
    the specification requires after a successful send is missing. *)
Lemma successful_send_seeds_no_record :
  fst (Whatsapp.process_SEND_TEXT Scenarios.provider_accepts Scenarios.text_job
                                  Scenarios.empty_world)
  = Return Scenarios.accepted_response
  /\ map msg_id (messages Scenarios.accepted_response) = ["wamid.1"]
  /\ calls (snd (Whatsapp.process_SEND_TEXT Scenarios.provider_accepts
                                            Scenarios.text_job
                                            Scenarios.empty_world))
     = [HttpPost "+221700000000" "text" "hello"; AddWebhook "message_sent"]
  /\ db (snd (Whatsapp.process_SEND_TEXT Scenarios.provider_accepts
                                         Scenarios.text_job Scenarios.empty_world))
        !! "wamid.1"
     = None
  /\ db (snd (Whatsapp.process_SEND_TEXT Scenarios.provider_accepts
                                         Scenarios.text_job Scenarios.empty_world))
     = ∅
  /\ fst (StatusService.updateStatus
            5000 "wamid.1" SENT 4000 None None
            (snd (Whatsapp.process_SEND_TEXT Scenarios.provider_accepts
                                             Scenarios.text_job
                                             Scenarios.empty_world)))
     = Return None.
Proof. vm_compute. repeat split; reflexivity. Qed.

(** C3. With a secret [S] configured and the raw body [P] available, the
    guard accepts (returns [true]) exactly when the header is ['sha256=']
    followed by the lowercase hexadecimal HMAC-SHA256 of [P] under [S]: the
    correctly computed signature is accepted; every other header, in particular
    an altered or a missing one, is rejected with an UnauthorizedException;
    the signature of [P] presented with another payload [P'] is rejected
    whenever the two digests differ, which is what the MAC provides for an
    altered payload; a request without raw body is rejected. With no secret
    configured every request is accepted and a warning is logged. *)
Theorem signature_verification_authentic
        (S : string) (P : Guard.RawBody) (w : World)
        (HS : truthy S = true) (HP : Guard.truthy_body (Some P) = true) :
  (forall h : option string,
      fst (Guard.canActivate S (Guard.mkRequest h (Some P)) w) = Return true
      <-> h = Some (Guard.expectedSignature S P))
  /\ (forall h : option string,
         h <> Some (Guard.expectedSignature S P) ->
         exists m, fst (Guard.canActivate S (Guard.mkRequest h (Some P)) w)
                   = Throw (UnauthorizedException m))
  /\ (forall P' : Guard.RawBody,
         Guard.truthy_body (Some P') = true ->
         Crypto.hmac_sha256 (Crypto.Buffer_from S) (Guard.payload_bytes P')
         <> Crypto.hmac_sha256 (Crypto.Buffer_from S) (Guard.payload_bytes P) ->
         exists m,
           fst (Guard.canActivate S
                  (Guard.mkRequest (Some (Guard.expectedSignature S P)) (Some P'))
                  w)
           = Throw (UnauthorizedException m))
  /\ (forall (h : option string) (b : option Guard.RawBody),
         Guard.truthy_body b = false ->
         exists m, fst (Guard.canActivate S (Guard.mkRequest h b) w)
                   = Throw (UnauthorizedException m))
  /\ (forall req : Guard.Request,
         Guard.canActivate "" req w
         = (Return true,
            add_log WARN
              "WHATSAPP_APP_SECRET not configured - webhook signature verification skipped"
              w)).
Proof.
  split; [|split; [|split; [|split]]].
  - intros h. rewrite (GuardFacts.canActivate_with_secret S P h w HS HP).
    case_bool_decide; split; try easy; discriminate.
  - intros h Hh. rewrite (GuardFacts.canActivate_with_secret S P h w HS HP).
    rewrite bool_decide_eq_false_2 by assumption. eauto.
  - intros P' HP' Hmac.
    rewrite (GuardFacts.canActivate_with_secret S P' _ w HS HP').
    rewrite bool_decide_eq_false_2; [eauto|].
    intros E. apply (inj Some) in E. symmetry in E.
    now apply GuardFacts.expectedSignature_inj in E.
  - intros h b Hb. unfold Guard.canActivate. rewrite HS. cbn [negb].
    cbn [Guard.x_hub_signature_256 Guard.rawBody].
    destruct (truthy_opt h); cbn [negb]; [rewrite Hb|]; cbn; eauto.
  - intros req. apply GuardFacts.canActivate_without_secret.
Qed.

(** At the secret of the guard's test suite: the signature of "payload"
    is accepted with "payload" and rejected with "paylobd". *)
Lemma signature_verification_authentic_witness :
  fst (Guard.canActivate Scenarios.testAppSecret
         (Guard.mkRequest
            (Some (Guard.expectedSignature Scenarios.testAppSecret Scenarios.payload))
            (Some Scenarios.payload))
         Scenarios.empty_world)
  = Return true
  /\ exists m,
      fst (Guard.canActivate Scenarios.testAppSecret
             (Guard.mkRequest
                (Some (Guard.expectedSignature Scenarios.testAppSecret Scenarios.payload))
                (Some Scenarios.tampered))
             Scenarios.empty_world)
      = Throw (UnauthorizedException m).
Proof.
  destruct (signature_verification_authentic
              Scenarios.testAppSecret Scenarios.payload Scenarios.empty_world
              eq_refl eq_refl) as (Hacc & _ & Htamper & _).
  split.
  - now apply Hacc.
  - apply (Htamper Scenarios.tampered eq_refl).
    vm_compute. discriminate.
Defined.

(** C4. A status callback whose message id matches no delivery record:
    [updateStatus] returns [null] without throwing, logs a warning, and
    leaves the records and the socket.io emissions as they were. A webhook
    made of such callbacks is answered with [{ status: "ok" }] when the
    WebhooksService answers its calls; and whatever the webhook and the
    collaborators do, the handler returns a body and throws nothing, so the
    provider always gets a success response. *)
Theorem orphan_callback_is_dropped
        (ext : Collaborators) (now : Date) (statuses : list Webhook.WaStatus)
        (w : World)
        (Hres : collaborators_resolve ext)
        (Horph : Forall (fun s => db w !! Webhook.wa_id s = None) statuses) :
  (forall (now' : Date) (id : string) (st : DeliveryStatus) (ts : Date)
          (code msg : option string),
      db w !! id = None ->
      StatusService.updateStatus now' id st ts code msg w
      = (Return None,
         {| db := db w; emitted := emitted w;
            logs := logs w ++ [mkLog WARN ("Message status not found for " +:+ id)];
            calls := calls w |}))
  /\ Webhook.receiveWebhook ext now (Webhook.status_webhook statuses) w
     = (Return (Webhook.mkResponse "ok" None),
        {| db := db w; emitted := emitted w;
           logs := logs w
                     ++ [mkLog LOG "Received webhook data:";
                         mkLog LOG "Message status update received:"]
                     ++ map Webhook.orphan_warning statuses;
           calls := calls w ++ [AddWebhook "status"]
                      ++ map Webhook.status_call statuses |})
  /\ (forall (ext' : Collaborators) (now' : Date)
             (webhookData : Webhook.WebhookData) (w0 : World),
         exists r : Webhook.Response,
           fst (Webhook.receiveWebhook ext' now' webhookData w0) = Return r).
Proof.
  split; [|split].
  - intros now' id st ts code msg Hnone.
    now rewrite (StatusFacts.updateStatus_orphan _ _ _ _ _ _ _ Hnone).
  - unfold Webhook.receiveWebhook. rewrite bind_run, logger_run.
    unfold try_catch. cbn [Webhook.first_value Webhook.status_webhook].
    cbn -[Webhook.for_statuses]. rewrite !bind_run.
    unfold Whatsapp.addWebhook.
    rewrite WebhookFacts.call_unit_resolves by apply Hres.
    rewrite bind_run. cbn -[Webhook.for_statuses]. rewrite !bind_run.
    rewrite logger_run.
    rewrite (WebhookFacts.for_statuses_orphans ext now statuses _ Hres)
      by exact Horph.
    cbn. rewrite <- !app_assoc. reflexivity.
  - intros ext' now' webhookData w0.
    apply WebhookFacts.receiveWebhook_returns.
Qed.

Lemma orphan_callback_is_dropped_witness :
  Webhook.receiveWebhook Scenarios.provider_accepts 5000
                         (Webhook.status_webhook [Scenarios.orphan_status])
                         Scenarios.seeded_world
  = (Return (Webhook.mkResponse "ok" None),
     {| db := db Scenarios.seeded_world;
        emitted := emitted Scenarios.seeded_world;
        logs := logs Scenarios.seeded_world
                  ++ [mkLog LOG "Received webhook data:";
                      mkLog LOG "Message status update received:";
                      mkLog WARN "Message status not found for wamid.unknown"];
        calls := [AddWebhook "status";
                  WebhooksUpdateStatus "wamid.unknown" "delivered"] |}).
Proof.
  refine (proj1 (proj2 (orphan_callback_is_dropped
                          Scenarios.provider_accepts 5000
                          [Scenarios.orphan_status] Scenarios.seeded_world _ _))).
  - repeat split.
  - constructor; [|constructor]. vm_compute. reflexivity.
Defined.


(** C6. The mapping of the provider's status string: the four known
    strings go to their members of the enum, every other string, the empty
    string and "pending" among them, goes to [PENDING]. The mapping is a
    total function: no input makes it throw. *)
Theorem mapWhatsAppStatus_total :
  Webhook.mapWhatsAppStatus "sent" = SENT
  /\ Webhook.mapWhatsAppStatus "delivered" = DELIVERED
  /\ Webhook.mapWhatsAppStatus "read" = READ
  /\ Webhook.mapWhatsAppStatus "failed" = FAILED
  /\ Webhook.mapWhatsAppStatus "" = PENDING
  /\ Webhook.mapWhatsAppStatus "pending" = PENDING
  /\ (forall s : string,
         Webhook.mapWhatsAppStatus s = PENDING
         <-> s ∉ ["sent"; "delivered"; "read"; "failed"])
  /\ (forall s : string,
         Webhook.mapWhatsAppStatus s = PENDING
         \/ DeliveryStatus_value (Webhook.mapWhatsAppStatus s) = s).
Proof.
  repeat (split; [reflexivity|]). split.
  - intros s. rewrite WebhookFacts.mapWhatsAppStatus_cases.
    rewrite !not_elem_of_cons.
    repeat case_decide; subst; split; try discriminate; try tauto.
    intros _. repeat split; try assumption. apply not_elem_of_nil.
  - intros s. rewrite WebhookFacts.mapWhatsAppStatus_cases.
    repeat case_decide; subst; auto.
Qed.

(** C7. The same status event applied twice to an existing record: the
    history grows by two equal entries, [currentStatus] becomes the status
    of the event with the first application and the second application
    leaves it there. *)
Theorem identical_event_twice
        (now1 now2 : Date) (id : string) (st : DeliveryStatus) (ts : Date)
        (code msg : option string) (w : World) (d : MessageStatus)
        (Hok : store_ok (db w)) (Hd : db w !! id = Some d) :
  let w1 := snd (StatusService.updateStatus now1 id st ts code msg w) in
  let w2 := snd (StatusService.updateStatus now2 id st ts code msg w1) in
  exists d1 d2 : MessageStatus,
    db w1 !! id = Some d1
    /\ db w2 !! id = Some d2
    /\ statusHistory d2
       = statusHistory d
           ++ [mkStatusUpdate st ts code msg; mkStatusUpdate st ts code msg]
    /\ currentStatus d1 = st
    /\ currentStatus d2 = currentStatus d1.
Proof.
  intros w1 w2.
  destruct (StatusFacts.store_ok_lookup _ _ _ Hok Hd) as [Hid Hval].
  pose proof (StatusFacts.updateStatus_store_ok now1 id st ts code msg w Hok)
    as Hok1.
  assert (db w1 !! id
          = Some (stamp false now1 (StatusService.apply_update d st ts code msg)))
    as Hd1.
  { subst w1. rewrite (StatusFacts.updateStatus_found _ _ _ _ _ _ _ _ Hd Hid Hval).
    cbn. apply lookup_insert_eq. }
  destruct (StatusFacts.store_ok_lookup _ _ _ Hok1 Hd1) as [Hid1 Hval1].
  eexists _, _. split; [exact Hd1|]. split.
  { subst w2.
    rewrite (StatusFacts.updateStatus_found _ _ _ _ _ _ _ _ Hd1 Hid1 Hval1).
    cbn. apply lookup_insert_eq. }
  cbn. rewrite <- app_assoc. repeat split; reflexivity.
Qed.

Lemma identical_event_twice_witness :
  let w1 := snd (StatusService.updateStatus 3000 "wamid.1" DELIVERED 2500 None None
                                            Scenarios.seeded_world) in
  let w2 := snd (StatusService.updateStatus 3001 "wamid.1" DELIVERED 2500 None None
                                            w1) in
  exists d1 d2 : MessageStatus,
    db w1 !! "wamid.1" = Some d1
    /\ db w2 !! "wamid.1" = Some d2
    /\ map status (statusHistory d2) = [PENDING; DELIVERED; DELIVERED]
    /\ currentStatus d2 = currentStatus d1.
Proof.
  destruct (db Scenarios.seeded_world !! "wamid.1") as [d|] eqn:Hd;
    [|exfalso; vm_compute in Hd; discriminate Hd].
  destruct (identical_event_twice
              3000 3001 "wamid.1" DELIVERED 2500 None None
              Scenarios.seeded_world d SequenceFacts.seeded_world_ok Hd)
    as (d1 & d2 & Hd1 & Hd2 & Hhist & _ & Hcur).
  exists d1, d2. split; [exact Hd1|]. split; [exact Hd2|].
  split; [|exact Hcur].
  rewrite Hhist. vm_compute in Hd. injection Hd as <-. reflexivity.
Defined.

(** C8. A call of [updateStatus] that succeeds on an existing record
    publishes its event exactly once, whatever the status (a status that
    precedes the current one is published like any other): the socket.io
    emissions grow by the deliveries of that one publish, in this order:
    the recipient's room, then the conversation's room when the event
    carries a (non-empty) conversation id and only then, then every
    client. Nothing else is emitted. *)
Theorem updateStatus_publishes_once
        (now : Date) (id : string) (st : DeliveryStatus) (ts : Date)
        (code msg : option string) (w w' : World) (d u : MessageStatus)
        (Hd : db w !! id = Some d)
        (Hrun : StatusService.updateStatus now id st ts code msg w
                = (Return (Some u), w')) :
  let ev := StatusService.status_event d id st ts code msg in
  emitted w' = emitted w ++ Gateway.delivery_order ev
  /\ (forall (e : StatusEvent) (w0 : World),
         Gateway.emitMessageStatusUpdate e w0
         = (Return tt,
            {| db := db w0;
               emitted :=
                 emitted w0
                   ++ [mkEmission (Some ("status-" +:+ ev_recipientPhone e))
                                  "messageStatusUpdate" e]
                   ++ match ev_conversationId e with
                      | Some (String a c) =>
                          [mkEmission (Some ("conversation-" +:+ String a c))
                                      "messageStatusUpdate" e]
                      | _ => []
                      end
                   ++ [mkEmission None "messageStatusChanged" e];
               logs := logs w0;
               calls := calls w0 |})).
Proof.
  intros ev. split.
  - destruct (validate d) as [path|] eqn:Hval.
    + rewrite (StatusFacts.updateStatus_invalid _ _ _ _ _ _ _ _ _ Hd Hval) in Hrun.
      discriminate Hrun.
    + rewrite (StatusFacts.updateStatus_valid _ _ _ _ _ _ _ _ Hd Hval) in Hrun.
      injection Hrun as _ <-. reflexivity.
  - intros e w0. rewrite GatewayFacts.emitMessageStatusUpdate_run.
    unfold Gateway.publish, Gateway.delivery_order.
    destruct (ev_conversationId e) as [[|a c]|]; reflexivity.
Qed.

Lemma updateStatus_publishes_once_witness :
  exists (u : MessageStatus) (w' : World),
    StatusService.applyStatus "wamid.1" Scenarios.late_sent Scenarios.delivered_world
    = (Return (Some u), w')
    /\ map room (drop (length (emitted Scenarios.delivered_world)) (emitted w'))
       = [Some "status-+221700000000"; Some "conversation-conv-1"; None].
Proof.
  destruct (db Scenarios.delivered_world !! "wamid.1") as [d|] eqn:Hd;
    [|exfalso; vm_compute in Hd; discriminate Hd].
  destruct (StatusService.applyStatus "wamid.1" Scenarios.late_sent
                                      Scenarios.delivered_world)
    as [[[u|]|e] w'] eqn:Hrun;
    [|exfalso; vm_compute in Hrun; discriminate Hrun
     |exfalso; vm_compute in Hrun; discriminate Hrun].
  exists u, w'. split; [reflexivity|].
  destruct (updateStatus_publishes_once _ _ _ _ _ _ _ _ _ _ Hd Hrun) as [Hemit _].
  rewrite Hemit, drop_app_length.
  vm_compute in Hd. injection Hd as <-. reflexivity.
Defined.

(** C9. A call of [updateStatus] on an existing record appends exactly one
    entry at the end of [statusHistory] and leaves the entries already
    there as they are, so the history never shrinks; [messageId],
    [recipientPhone], [conversationId] and [metadata] are unchanged, the
    record stays under its message id, and no other record is touched.
    The collection is well formed in every world the service reaches
    ([InvariantFacts.reachable_store_ok]). *)
Theorem updateStatus_appends_one_entry
        (now : Date) (id : string) (st : DeliveryStatus) (ts : Date)
        (code msg : option string) (w : World) (d : MessageStatus)
        (Hok : store_ok (db w)) (Hd : db w !! id = Some d) :
  exists d' : MessageStatus,
    fst (StatusService.updateStatus now id st ts code msg w) = Return (Some d')
    /\ db (snd (StatusService.updateStatus now id st ts code msg w)) !! id
       = Some d'
    /\ statusHistory d' = statusHistory d ++ [mkStatusUpdate st ts code msg]
    /\ length (statusHistory d') = S (length (statusHistory d))
    /\ messageId d' = messageId d
    /\ recipientPhone d' = recipientPhone d
    /\ conversationId d' = conversationId d
    /\ metadata d' = metadata d
    /\ (forall id' : string,
           id' <> id ->
           db (snd (StatusService.updateStatus now id st ts code msg w)) !! id'
           = db w !! id').
Proof.
  destruct (StatusFacts.store_ok_lookup _ _ _ Hok Hd) as [Hid Hval].
  rewrite (StatusFacts.updateStatus_found _ _ _ _ _ _ _ _ Hd Hid Hval). cbn.
  eexists. split; [reflexivity|]. split; [apply lookup_insert_eq|].
  cbn. repeat (split; [try reflexivity|]).
  - rewrite length_app. cbn. lia.
  - intros id' Hne. now apply lookup_insert_ne.
Qed.

Lemma updateStatus_appends_one_entry_witness :
  exists d' : MessageStatus,
    db (snd (StatusService.updateStatus 3000 "wamid.1" DELIVERED 2500 None None
                                        Scenarios.seeded_world)) !! "wamid.1"
    = Some d'
    /\ map status (statusHistory d') = [PENDING; DELIVERED]
    /\ messageId d' = "wamid.1".
Proof.
  destruct (db Scenarios.seeded_world !! "wamid.1") as [d|] eqn:Hd;
    [|exfalso; vm_compute in Hd; discriminate Hd].
  destruct (updateStatus_appends_one_entry
              3000 "wamid.1" DELIVERED 2500 None None Scenarios.seeded_world d
              SequenceFacts.seeded_world_ok Hd)
    as (d' & _ & Hd' & Hhist & _ & Hmid & _).
  exists d'. split; [exact Hd'|].
  vm_compute in Hd. injection Hd as <-.
  rewrite Hhist, Hmid. split; reflexivity.
Defined.

(** C10. [verifySignature] is total: for every secret, payload and header
    string it returns a boolean and throws nothing. The boolean says
    whether the header is the expected signature. When the byte lengths of
    the header and of the expected signature differ, the RangeError of
    [timingSafeEqual] is caught, an error is logged and the result is
    [false]. *)
Theorem verifySignature_total
        (S : string) (P : Guard.RawBody) (sig : string) (w : World) :
  (exists (b : bool) (w' : World),
      Guard.verifySignature S P sig w = (Return b, w'))
  /\ fst (Guard.verifySignature S P sig w)
     = Return (bool_decide (sig = Guard.expectedSignature S P))
  /\ Guard.verifySignature S P sig w
     = if (length (Crypto.Buffer_from sig)
           =? length (Crypto.Buffer_from (Guard.expectedSignature S P)))%nat
       then (Return (Crypto.Buffer_eqb
                       (Crypto.Buffer_from sig)
                       (Crypto.Buffer_from (Guard.expectedSignature S P))), w)
       else (Return false, add_log ERROR Guard.length_error w).
Proof.
  split; [|split].
  - rewrite GuardFacts.verifySignature_run. destruct (_ =? _)%nat; eauto.
  - apply GuardFacts.verifySignature_decides.
  - apply GuardFacts.verifySignature_run.
Qed.

(** * Further properties of the code *)

Module QueryFacts.
Import StatusService StatusQueries.

Global Instance newest_first_total : Total newest_first.
Proof.
  intros a b. unfold newest_first.
  destruct (createdAt a), (createdAt b); auto. lia.
Qed.

Global Instance newest_first_trans : Transitive newest_first.
Proof.
  intros a b c. unfold newest_first.
  destruct (createdAt a), (createdAt b), (createdAt c); auto; try lia; easy.
Qed.

Lemma find_newest_first_perm (q : MessageStatus -> bool)
      (m : gmap string MessageStatus) :
  find_newest_first q m ≡ₚ List.filter q (map snd (map_to_list m)).
Proof. apply merge_sort_Permutation. Qed.

Lemma find_newest_first_sorted (q : MessageStatus -> bool)
      (m : gmap string MessageStatus) :
  StronglySorted newest_first (find_newest_first q m).
Proof. apply StronglySorted_merge_sort; apply _. Qed.

Lemma find_newest_first_length (q : MessageStatus -> bool)
      (m : gmap string MessageStatus) :
  length (find_newest_first q m) = countDocuments q m.
Proof. unfold countDocuments. now rewrite find_newest_first_perm. Qed.

Lemma elem_of_find_newest_first (q : MessageStatus -> bool)
      (m : gmap string MessageStatus) (d : MessageStatus) :
  d ∈ find_newest_first q m <-> q d = true /\ exists id, m !! id = Some d.
Proof.
  rewrite find_newest_first_perm, list_elem_of_In, filter_In, <- list_elem_of_In.
  rewrite list_elem_of_fmap. split.
  - intros [([id d'] & -> & Hin) Hq]. split; [exact Hq|].
    exists id. now apply elem_of_map_to_list.
  - intros [Hq [id Hid]]. split; [|exact Hq].
    exists (id, d). split; [reflexivity|]. now apply elem_of_map_to_list.
Qed.

Lemma skip_limit_length (offset limit : nat) (l : list MessageStatus) :
  length (skip_limit offset limit l)
  = if (limit =? 0)%nat then (length l - offset)%nat
    else Nat.min limit (length l - offset).
Proof.
  unfold skip_limit. destruct (limit =? 0)%nat.
  - apply length_drop.
  - now rewrite length_take, length_drop.
Qed.

Lemma skip_limit_sublist (offset limit : nat) (l : list MessageStatus) :
  sublist (skip_limit offset limit l) l.
Proof.
  unfold skip_limit. destruct (limit =? 0)%nat.
  - apply sublist_drop.
  - etrans; [apply sublist_take|apply sublist_drop].
Qed.

Lemma StronglySorted_sublist {A} (R : relation A) (l k : list A) :
  sublist l k -> StronglySorted R k -> StronglySorted R l.
Proof.
  intros Hsub Hk. revert l Hsub.
  induction Hk as [|x k Hk IH Hx]; intros l Hsub.
  - apply sublist_nil_r in Hsub. subst. constructor.
  - inversion Hsub as [|y l' k' Hs|y l' k' Hs]; subst.
    + constructor; [now apply IH|].
      rewrite Forall_forall in Hx |- *. intros z Hz. apply Hx.
      eapply elem_of_sublist; eauto.
    + now apply IH.
Qed.

Lemma count_Permutation {A} (q : MessageStatus -> bool) (f : A -> MessageStatus)
      (l k : list A) :
  l ≡ₚ k ->
  length (List.filter q (map f l)) = length (List.filter q (map f k)).
Proof.
  induction 1 as [|x l k _ IH|x y l|l k j _ IH1 _ IH2]; cbn.
  - reflexivity.
  - destruct (q (f x)); cbn; now rewrite IH.
  - destruct (q (f x)), (q (f y)); reflexivity.
  - now rewrite IH1.
Qed.

Lemma countDocuments_size (q : MessageStatus -> bool)
      (m : gmap string MessageStatus) :
  countDocuments q m = size (filter (fun kv => q (snd kv) = true) m).
Proof.
  unfold countDocuments.
  induction m as [|id d m Hfresh IH] using map_ind.
  - now rewrite map_to_list_empty, map_filter_empty, map_size_empty.
  - rewrite (count_Permutation q snd _ _ (map_to_list_insert m id d Hfresh)).
    cbn. destruct (q d) eqn:Hq.
    + rewrite map_filter_insert_True by exact Hq.
      rewrite map_size_insert_None
        by (rewrite map_lookup_filter, Hfresh; reflexivity).
      cbn. now rewrite IH.
    + rewrite map_filter_insert_False by (cbn; congruence).
      rewrite delete_id by exact Hfresh. exact IH.
Qed.

Lemma filter_split_length (q : MessageStatus -> bool) (l : list MessageStatus) :
  (length (List.filter q l) + length (List.filter (fun d => negb (q d)) l))%nat
  = length l.
Proof. induction l as [|d l IH]; cbn; [reflexivity|]. destruct (q d); cbn; lia. Qed.

Lemma countDocuments_split (q : MessageStatus -> bool)
      (m : gmap string MessageStatus) :
  (countDocuments q m + countDocuments (fun d => negb (q d)) m)%nat = size m.
Proof.
  unfold countDocuments. rewrite filter_split_length.
  now rewrite List.length_map, length_map_to_list.
Qed.

(** The world after the cleanup. *)
Lemma deleteOldStatuses_lookup (olderThan : Date) (w : World) (id : string) :
  db (snd (deleteOldStatuses olderThan w)) !! id
  = d ← db w !! id ; if older_than olderThan d then None else Some d.
Proof.
  cbn. rewrite map_lookup_filter.
  destruct (db w !! id) as [d|]; cbn; [|reflexivity].
  destruct (older_than olderThan d); cbn;
    [rewrite option_guard_False by discriminate
    |rewrite option_guard_True by reflexivity]; reflexivity.
Qed.

Lemma deleteOldStatuses_count (olderThan : Date) (w : World) :
  (countDocuments (older_than olderThan) (db w)
   + size (db (snd (deleteOldStatuses olderThan w))))%nat
  = size (db w).
Proof.
  rewrite <- (countDocuments_split (older_than olderThan) (db w)).
  f_equal. cbn. rewrite countDocuments_size.
  f_equal. apply map_filter_ext. intros i x _. cbn.
  destruct (older_than olderThan x); cbn; split; congruence.
Qed.

End QueryFacts.

Module PageFacts.
Import StatusService StatusQueries QueryFacts.

Lemma page_facts (q : MessageStatus -> bool) (limit offset : nat)
      (m : gmap string MessageStatus) :
  (forall d, d ∈ skip_limit offset limit (find_newest_first q m) ->
             q d = true /\ exists id, m !! id = Some d)
  /\ StronglySorted newest_first (skip_limit offset limit (find_newest_first q m))
  /\ length (skip_limit offset limit (find_newest_first q m))
     = if (limit =? 0)%nat then (countDocuments q m - offset)%nat
       else Nat.min limit (countDocuments q m - offset).
Proof.
  split; [|split].
  - intros d Hd. apply elem_of_find_newest_first.
    eapply elem_of_sublist; [exact Hd|apply skip_limit_sublist].
  - eapply StronglySorted_sublist;
      [apply skip_limit_sublist|apply find_newest_first_sorted].
  - now rewrite skip_limit_length, find_newest_first_length.
Qed.

Lemma deleteOldStatuses_again (olderThan : Date) (w : World) :
  let w' := snd (deleteOldStatuses olderThan w) in
  fst (deleteOldStatuses olderThan w') = Return 0%nat
  /\ db (snd (deleteOldStatuses olderThan w')) = db w'.
Proof.
  intros w'. split.
  - cbn. f_equal. rewrite countDocuments_size.
    apply map_size_empty_iff, map_eq. intros id.
    rewrite lookup_empty, !map_lookup_filter.
    destruct (db w !! id) as [d|]; cbn; [|reflexivity].
    destruct (older_than olderThan d) eqn:Hold; cbn.
    + now rewrite option_guard_False by discriminate.
    + rewrite option_guard_True by reflexivity. cbn.
      now rewrite option_guard_False by congruence.
  - subst w'. apply map_eq. intros id.
    rewrite (deleteOldStatuses_lookup olderThan (snd (deleteOldStatuses olderThan w))).
    rewrite deleteOldStatuses_lookup.
    destruct (db w !! id) as [d|]; cbn; [|reflexivity].
    destruct (older_than olderThan d) eqn:Hold; cbn; [reflexivity|].
    now rewrite Hold.
Qed.

Lemma deleteOldStatuses_store_ok (olderThan : Date) (w : World) :
  store_ok (db w) -> store_ok (db (snd (deleteOldStatuses olderThan w))).
Proof.
  intros Hok id d Hd. rewrite deleteOldStatuses_lookup in Hd.
  destruct (db w !! id) as [d0|] eqn:Hd0; cbn in Hd; [|discriminate].
  destruct (older_than olderThan d0); [discriminate|].
  injection Hd as <-. exact (Hok id d0 Hd0).
Qed.

(** Each record has one status: the five counts add up. *)
Lemma status_counts_partition (f : MessageStatus -> bool)
      (m : gmap string MessageStatus) :
  countDocuments (fun d => f d && true) m
  = (countDocuments (fun d => f d && has_status PENDING d) m
     + countDocuments (fun d => f d && has_status SENT d) m
     + countDocuments (fun d => f d && has_status DELIVERED d) m
     + countDocuments (fun d => f d && has_status READ d) m
     + countDocuments (fun d => f d && has_status FAILED d) m)%nat.
Proof.
  unfold countDocuments, has_status.
  induction (map snd (map_to_list m)) as [|d l IH]; cbn; [reflexivity|].
  destruct (f d); cbn; [|exact IH].
  destruct (currentStatus d); cbn;
    repeat case_bool_decide; try discriminate; try congruence; cbn; lia.
Qed.

End PageFacts.

Module RecordFacts.
Import StatusService StatusFacts Projection.

Section RecordInvariant.
Variable P : MessageStatus -> Prop.
Hypothesis P_created :
  forall (now : Date) (id phone : string) (conv : option string)
         (meta : option Metadata),
    P {| messageId := id; recipientPhone := phone; conversationId := conv;
         currentStatus := PENDING;
         statusHistory := [mkStatusUpdate PENDING now None None];
         sentAt := None; deliveredAt := None; readAt := None; failedAt := None;
         errorCode := None; errorMessage := None; metadata := meta;
         createdAt := Some now; updatedAt := Some now |}.
Hypothesis P_updated :
  forall (now : Date) (d : MessageStatus) st ts code msg,
    P d -> P (stamp false now (apply_update d st ts code msg)).

Lemma keeps_records_preserves_db {A} (m : M A) :
  preserves_db m -> keeps_records P m.
Proof. intros Hm w Hw. now rewrite Hm. Qed.

Lemma keeps_records_bind {A B} (m : M A) (f : A -> M B) :
  keeps_records P m -> (forall a, keeps_records P (f a)) ->
  keeps_records P (m ≫= f).
Proof.
  intros Hm Hf w Hw. rewrite bind_run. specialize (Hm w Hw).
  destruct (m w) as [[a|e] w']; cbn in *; [apply Hf|]; exact Hm.
Qed.

Lemma keeps_records_try_catch {A} (body : M A) (handler : Exn -> M A) :
  keeps_records P body -> (forall e, keeps_records P (handler e)) ->
  keeps_records P (try_catch body handler).
Proof.
  intros Hb Hh w Hw. unfold try_catch. specialize (Hb w Hw).
  destruct (body w) as [[a|e] w']; cbn in *; [|apply Hh]; exact Hb.
Qed.

Lemma keeps_records_createMessageStatus now id phone conv meta :
  keeps_records P (createMessageStatus now id phone conv meta).
Proof.
  intros w Hw. unfold createMessageStatus. rewrite bind_run. unfold save at 1.
  match goal with |- context [validate ?d] => destruct (validate d) eqn:Hval end;
    [assumption|].
  match goal with |- context [if ?b then _ else _] => destruct b end;
    [assumption|].
  cbn. apply map_Forall_insert_2; [apply P_created|assumption].
Qed.

Lemma keeps_records_updateStatus now id st ts code msg :
  keeps_records P (updateStatus now id st ts code msg).
Proof.
  intros w Hw. destruct (db w !! id) as [d|] eqn:Hd.
  - destruct (validate d) as [path|] eqn:Hval.
    + now rewrite (updateStatus_invalid _ _ _ _ _ _ _ _ _ Hd Hval).
    + rewrite (updateStatus_valid _ _ _ _ _ _ _ _ Hd Hval). cbn.
      apply map_Forall_insert_2; [|assumption].
      apply P_updated. exact (Hw id d Hd).
  - now rewrite (updateStatus_orphan _ _ _ _ _ _ _ Hd).
Qed.

Lemma keeps_records_for_statuses (ext : Collaborators) (now : Date)
      (statuses : list Webhook.WaStatus) :
  keeps_records P (Webhook.for_statuses ext now statuses).
Proof.
  induction statuses as [|s rest IH]; cbn [Webhook.for_statuses].
  - apply keeps_records_preserves_db, FrameFacts.preserves_db_ret.
  - apply keeps_records_bind; [|intros _; exact IH].
    unfold Webhook.process_status.
    apply keeps_records_bind; [apply keeps_records_updateStatus|].
    intros _. apply keeps_records_preserves_db, FrameFacts.preserves_db_call_unit.
Qed.

Lemma keeps_records_receiveWebhook (ext : Collaborators) (now : Date)
      (webhookData : Webhook.WebhookData) :
  keeps_records P (Webhook.receiveWebhook ext now webhookData).
Proof.
  unfold Webhook.receiveWebhook, Whatsapp.addWebhook.
  apply keeps_records_bind;
    [apply keeps_records_preserves_db, FrameFacts.preserves_db_logger|intros _].
  apply keeps_records_try_catch.
  - destruct (Webhook.first_value webhookData) as [v|];
      [|apply keeps_records_preserves_db, FrameFacts.preserves_db_ret].
    apply keeps_records_bind;
      [apply keeps_records_preserves_db, FrameFacts.preserves_db_call_unit|intros _].
    apply keeps_records_bind; [|intros _].
    { case_bool_decide; apply keeps_records_preserves_db;
        [apply FrameFacts.preserves_db_call_unit|apply FrameFacts.preserves_db_ret]. }
    apply keeps_records_bind;
      [|intros _; apply keeps_records_preserves_db, FrameFacts.preserves_db_ret].
    destruct (Webhook.wa_statuses v) as [statuses|];
      [|apply keeps_records_preserves_db, FrameFacts.preserves_db_ret].
    apply keeps_records_bind;
      [apply keeps_records_preserves_db, FrameFacts.preserves_db_logger|intros _].
    apply keeps_records_for_statuses.
  - intros e. apply keeps_records_preserves_db.
    apply FrameFacts.preserves_db_bind; [apply FrameFacts.preserves_db_logger|intros _].
    apply FrameFacts.preserves_db_ret.
Qed.

Lemma keeps_records_deleteOldStatuses (olderThan : Date) :
  keeps_records P (StatusQueries.deleteOldStatuses olderThan).
Proof.
  intros w Hw id d Hd. rewrite QueryFacts.deleteOldStatuses_lookup in Hd.
  destruct (db w !! id) as [d0|] eqn:Hd0; cbn in Hd; [|discriminate].
  destruct (StatusQueries.older_than olderThan d0); [discriminate|].
  injection Hd as <-. exact (Hw id d0 Hd0).
Qed.

Lemma run_all_keeps_records (ops : list Pipeline.Operation) (w : World) :
  map_Forall (fun _ d => P d) (db w) ->
  map_Forall (fun _ d => P d) (db (Pipeline.run_all ops w)).
Proof.
  unfold Pipeline.run_all. revert w.
  induction ops as [|o ops IH]; intros w Hw; cbn [foldl]; [assumption|].
  apply IH. destruct o as [[| | |]|]; cbn [Pipeline.run Service.run].
  - now apply keeps_records_createMessageStatus.
  - now apply keeps_records_updateStatus.
  - now apply keeps_records_receiveWebhook.
  - now rewrite FrameFacts.process_SEND_TEXT_preserves_db.
  - now apply keeps_records_deleteOldStatuses.
Qed.

Lemma reachable_records (ops : list Pipeline.Operation) (id : string)
      (d : MessageStatus) :
  db (Pipeline.run_all ops Scenarios.empty_world) !! id = Some d -> P d.
Proof.
  intros Hd.
  exact (run_all_keeps_records ops Scenarios.empty_world
           (map_Forall_empty _) id d Hd).
Qed.

End RecordInvariant.

Lemma latest_snoc (st : DeliveryStatus) (h : list StatusUpdate)
      (e : StatusUpdate) :
  latest st (h ++ [e]) = if decide (status e = st) then Some e else latest st h.
Proof.
  unfold latest. rewrite filter_app, filter_cons, filter_nil.
  destruct (decide (status e = st)); [apply last_snoc|now rewrite app_nil_r].
Qed.

Lemma current_follows_history_updated (now : Date) (d : MessageStatus)
      st ts code msg :
  current_follows_history d ->
  current_follows_history (stamp false now (apply_update d st ts code msg)).
Proof.
  intros [Hhead Hlast]. split; cbn.
  - destruct (statusHistory d); [discriminate|exact Hhead].
  - now rewrite last_snoc.
Qed.

Lemma fields_follow_history_updated (now : Date) (d : MessageStatus)
      st ts code msg :
  fields_follow_history d ->
  fields_follow_history (stamp false now (apply_update d st ts code msg)).
Proof.
  intros (Hs & Hd & Hr & Hf & Hc & Hm).
  unfold fields_follow_history, stamp, apply_update.
  cbn [statusHistory sentAt deliveredAt readAt failedAt errorCode errorMessage].
  rewrite !latest_snoc. cbn [status].
  destruct st; repeat case_decide; try discriminate; try congruence;
    cbn; auto 10.
Qed.

Lemma continues_refl (d : MessageStatus) : continues d d.
Proof. unfold continues. now repeat split. Qed.

Lemma continues_trans (a b c : MessageStatus) :
  continues a b -> continues b c -> continues a c.
Proof.
  intros (H1 & H2 & H3 & H4 & H5 & H6) (G1 & G2 & G3 & G4 & G5 & G6).
  unfold continues. repeat split; try congruence.
  now transitivity (statusHistory b).
Qed.

Lemma continues_updated (now : Date) (d : MessageStatus) st ts code msg :
  continues d (stamp false now (apply_update d st ts code msg)).
Proof.
  unfold continues. repeat split. cbn. now apply prefix_app_r.
Qed.

Lemma grows_refl (m : gmap string MessageStatus) : grows m m.
Proof. intros id. destruct (m !! id); [apply continues_refl|exact I]. Qed.

Lemma grows_trans (a b c : gmap string MessageStatus) :
  grows a b -> grows b c -> grows a c.
Proof.
  intros Hab Hbc id. specialize (Hab id). specialize (Hbc id).
  destruct (a !! id), (b !! id), (c !! id); try tauto.
  eapply continues_trans; eassumption.
Qed.

Lemma only_grows_preserves_db {A} (m : M A) :
  preserves_db m -> only_grows m.
Proof. intros Hm w Hok. rewrite Hm. split; [assumption|apply grows_refl]. Qed.

Lemma only_grows_bind {A B} (m : M A) (f : A -> M B) :
  only_grows m -> (forall a, only_grows (f a)) -> only_grows (m ≫= f).
Proof.
  intros Hm Hf w Hok. rewrite bind_run. destruct (Hm w Hok) as [Hok' Hg].
  destruct (m w) as [[a|e] w']; cbn in *; [|now split].
  destruct (Hf a w' Hok') as [Hok'' Hg']. split; [assumption|].
  eapply grows_trans; eassumption.
Qed.

Lemma only_grows_try_catch {A} (body : M A) (handler : Exn -> M A) :
  only_grows body -> (forall e, only_grows (handler e)) ->
  only_grows (try_catch body handler).
Proof.
  intros Hb Hh w Hok. unfold try_catch. destruct (Hb w Hok) as [Hok' Hg].
  destruct (body w) as [[a|e] w']; cbn in *; [now split|].
  destruct (Hh e w' Hok') as [Hok'' Hg']. split; [assumption|].
  eapply grows_trans; eassumption.
Qed.

Lemma only_grows_updateStatus now id st ts code msg :
  only_grows (updateStatus now id st ts code msg).
Proof.
  intros w Hok. split; [now apply updateStatus_store_ok|].
  destruct (db w !! id) as [d|] eqn:Hd.
  - destruct (store_ok_lookup _ _ _ Hok Hd) as [Hid Hval].
    rewrite (updateStatus_found _ _ _ _ _ _ _ _ Hd Hid Hval). cbn.
    intros id'. destruct (decide (id' = id)) as [->|Hne].
    + rewrite Hd, lookup_insert_eq. apply continues_updated.
    + rewrite lookup_insert_ne by congruence. apply grows_refl.
  - rewrite (updateStatus_orphan _ _ _ _ _ _ _ Hd). apply grows_refl.
Qed.

Lemma only_grows_for_statuses (ext : Collaborators) (now : Date)
      (statuses : list Webhook.WaStatus) :
  only_grows (Webhook.for_statuses ext now statuses).
Proof.
  induction statuses as [|s rest IH]; cbn [Webhook.for_statuses].
  - apply only_grows_preserves_db, FrameFacts.preserves_db_ret.
  - apply only_grows_bind; [|intros _; exact IH].
    unfold Webhook.process_status.
    apply only_grows_bind; [apply only_grows_updateStatus|].
    intros _. apply only_grows_preserves_db, FrameFacts.preserves_db_call_unit.
Qed.

Lemma only_grows_receiveWebhook (ext : Collaborators) (now : Date)
      (webhookData : Webhook.WebhookData) :
  only_grows (Webhook.receiveWebhook ext now webhookData).
Proof.
  unfold Webhook.receiveWebhook, Whatsapp.addWebhook.
  apply only_grows_bind;
    [apply only_grows_preserves_db, FrameFacts.preserves_db_logger|intros _].
  apply only_grows_try_catch.
  - destruct (Webhook.first_value webhookData) as [v|];
      [|apply only_grows_preserves_db, FrameFacts.preserves_db_ret].
    apply only_grows_bind;
      [apply only_grows_preserves_db, FrameFacts.preserves_db_call_unit|intros _].
    apply only_grows_bind; [|intros _].
    { case_bool_decide; apply only_grows_preserves_db;
        [apply FrameFacts.preserves_db_call_unit|apply FrameFacts.preserves_db_ret]. }
    apply only_grows_bind;
      [|intros _; apply only_grows_preserves_db, FrameFacts.preserves_db_ret].
    destruct (Webhook.wa_statuses v) as [statuses|];
      [|apply only_grows_preserves_db, FrameFacts.preserves_db_ret].
    apply only_grows_bind;
      [apply only_grows_preserves_db, FrameFacts.preserves_db_logger|intros _].
    apply only_grows_for_statuses.
  - intros e. apply only_grows_preserves_db.
    apply FrameFacts.preserves_db_bind; [apply FrameFacts.preserves_db_logger|intros _].
    apply FrameFacts.preserves_db_ret.
Qed.

End RecordFacts.

Module PipelineFacts.
Import StatusFacts SequenceFacts FrameFacts InvariantFacts.

Lemma pipeline_store_ok (ops : list Pipeline.Operation) (w : World) :
  store_ok (db w) -> store_ok (db (Pipeline.run_all ops w)).
Proof.
  unfold Pipeline.run_all. revert w.
  induction ops as [|o ops IH]; intros w Hok; cbn [foldl]; [assumption|].
  apply IH. destruct o as [[| | |]|]; cbn [Pipeline.run Service.run].
  - now apply createMessageStatus_store_ok.
  - now apply updateStatus_store_ok.
  - now apply keeps_store_ok_receiveWebhook.
  - now rewrite process_SEND_TEXT_preserves_db.
  - now apply PageFacts.deleteOldStatuses_store_ok.
Qed.


End PipelineFacts.

Module BatchFacts.
Import Webhook Batch StatusFacts.

(** [updateStatus] under a well-formed collection: it returns, and
    what it does to the records and the emissions does not depend on
    the logs and the calls. *)
Lemma updateStatus_data now (id : string) st ts code msg (w : World) :
  store_ok (db w) ->
  exists (r : option MessageStatus) (m : gmap string MessageStatus)
         (es : list Emission) (ls : list LogEntry),
    (forall w0 : World,
        db w0 = db w -> emitted w0 = emitted w ->
        StatusService.updateStatus now id st ts code msg w0
        = (Return r, {| db := m; emitted := es;
                        logs := logs w0 ++ ls; calls := calls w0 |})).
Proof.
  intros Hok. destruct (db w !! id) as [d|] eqn:Hd.
  - destruct (store_ok_lookup _ _ _ Hok Hd) as [Hid Hval].
    eexists _, _, _, _. intros w0 Hdb Hem. rewrite <- Hdb in Hd.
    rewrite (updateStatus_found _ _ _ _ _ _ _ _ Hd Hid Hval).
    unfold add_log, Gateway.publish, set_db. cbn [db emitted logs calls].
    rewrite Hdb, Hem. reflexivity.
  - eexists _, _, _, _. intros w0 Hdb Hem. rewrite <- Hdb in Hd.
    rewrite (updateStatus_orphan _ _ _ _ _ _ _ Hd).
    unfold add_log, Gateway.publish, set_db. cbn [db emitted logs calls].
    rewrite Hdb, Hem. reflexivity.
Qed.



End BatchFacts.

Module SendFacts.
Import Whatsapp SendErrors.

Lemma handler_run (err : Exn) (w : World) :
  (logger ERROR ("Failed to send message: " +:+ exn_message err) ;;
   match err with
   | AxiosError _ (Some (status, error_message)) =>
       throw (HttpException
                ("WhatsApp API Error: "
                   +:+ (if truthy_opt error_message
                        then default "" error_message
                        else "Unknown error"))
                status)
   | _ => throw (HttpException "Failed to send WhatsApp message" 500)
   end) w
  = (@Throw WhatsappApiResponse (translated err),
     add_log ERROR ("Failed to send message: " +:+ exn_message err) w).
Proof.
  rewrite bind_run, logger_run.
  destruct err as [| | | | |m [[st em]|]|]; reflexivity.
Qed.

(** The three courses of [sendMessage]. *)
Lemma sendMessage_run (ext : Collaborators) (dto : SendMessageDto) (w : World) :
  let to_ := to dto in
  let type_ := default "text" (type dto) in
  let posted := HttpPost to_ type_ (message dto) in
  sendMessage ext dto w
  = match post_result ext (calls w) to_ type_ (message dto) with
    | inl e =>
        (Throw (translated e),
         {| db := db w; emitted := emitted w;
            logs := logs w ++ [mkLog DEBUG ("Sending message to " +:+ to_);
                               mkLog ERROR ("Failed to send message: "
                                              +:+ exn_message e)];
            calls := calls w ++ [posted] |})
    | inr r =>
        match addWebhook_result ext (calls w ++ [posted]) "message_sent" with
        | Some e =>
            (Throw (translated e),
             {| db := db w; emitted := emitted w;
                logs := logs w ++ [mkLog DEBUG ("Sending message to " +:+ to_);
                                   mkLog ERROR ("Failed to send message: "
                                                  +:+ exn_message e)];
                calls := calls w ++ [posted; AddWebhook "message_sent"] |})
        | None =>
            (Return r,
             {| db := db w; emitted := emitted w;
                logs := logs w ++ [mkLog DEBUG ("Sending message to " +:+ to_);
                                   mkLog LOG ("Message sent successfully to "
                                                +:+ to_)];
                calls := calls w ++ [posted; AddWebhook "message_sent"] |})
        end
    end.
Proof.
  intros to_ type_ posted. subst to_ type_ posted.
  unfold sendMessage, try_catch.
  rewrite bind_run, logger_run, bind_run. unfold post at 1.
  cbn [calls add_log].
  destruct (post_result ext (calls w) (to dto) (default "text" (type dto))
                        (message dto)) as [e|r].
  - rewrite handler_run. unfold add_log, record_call. cbn.
    now rewrite <- !app_assoc.
  - rewrite bind_run. unfold addWebhook, call_unit at 1.
    cbn [calls record_call].
    destruct (addWebhook_result ext _ "message_sent") as [e|].
    + rewrite handler_run. unfold add_log, record_call. cbn.
      now rewrite <- !app_assoc.
    + rewrite bind_run, logger_run. unfold add_log, record_call. cbn.
      now rewrite <- !app_assoc.
Qed.

End SendFacts.

Module QuietFacts.
Import Projection.







End QuietFacts.

(** ** The properties *)

(** X1. [getByStatus] and [getByRecipient] read the collection and change
    nothing. The total they report is the number of stored records with
    that status (that recipient), whatever the limit and the offset. The
    page holds stored records that match, newest first by [createdAt], and
    its length is the total less the offset, cut to the limit; the limit
    is 50 and the offset 0 when they are left out, and a limit of 0 does
    not cut. [getFailedMessages], of the service and of the controller, is
    [getByStatus] for the failed status. *)
Theorem pages_are_newest_first_and_bounded
        (limit offset : option nat) (w : World) :
  (forall st : DeliveryStatus,
      exists p : StatusQueries.Page,
        StatusQueries.getByStatus st limit offset w = (Return p, w)
        /\ StatusQueries.page_total p
           = size (filter (fun kv => currentStatus (snd kv) = st) (db w))
        /\ (forall d, d ∈ StatusQueries.page_data p ->
                      currentStatus d = st /\ exists id, db w !! id = Some d)
        /\ StronglySorted StatusQueries.newest_first (StatusQueries.page_data p)
        /\ length (StatusQueries.page_data p)
           = if (default 50%nat limit =? 0)%nat
             then (StatusQueries.page_total p - default 0%nat offset)%nat
             else Nat.min (default 50%nat limit)
                          (StatusQueries.page_total p - default 0%nat offset))
  /\ (forall phone : string,
         exists p : StatusQueries.Page,
           StatusQueries.getByRecipient phone limit offset w = (Return p, w)
           /\ StatusQueries.page_total p
              = size (filter (fun kv => recipientPhone (snd kv) = phone) (db w))
           /\ (forall d, d ∈ StatusQueries.page_data p ->
                         recipientPhone d = phone
                         /\ exists id, db w !! id = Some d)
           /\ StronglySorted StatusQueries.newest_first
                             (StatusQueries.page_data p)
           /\ length (StatusQueries.page_data p)
              = if (default 50%nat limit =? 0)%nat
                then (StatusQueries.page_total p - default 0%nat offset)%nat
                else Nat.min (default 50%nat limit)
                             (StatusQueries.page_total p - default 0%nat offset))
  /\ StatusQueries.getFailedMessages limit offset w
     = StatusQueries.getByStatus FAILED limit offset w
  /\ StatusController.getFailedMessages limit offset w
     = StatusQueries.getByStatus FAILED limit offset w.
Proof.
  split; [|split; [|split]].
  - intros st. eexists. split; [reflexivity|]. cbn.
    destruct (PageFacts.page_facts (StatusService.has_status st)
                (default 50%nat limit) (default 0%nat offset) (db w))
      as (Hin & Hsorted & Hlen).
    split; [|split; [|split]].
    + rewrite QueryFacts.countDocuments_size. f_equal.
      apply map_filter_ext. intros i x _. cbn.
      unfold StatusService.has_status. now rewrite bool_decide_eq_true.
    + intros d Hd. destruct (Hin d Hd) as [Hq Hex]. split; [|exact Hex].
      now apply bool_decide_eq_true in Hq.
    + exact Hsorted.
    + exact Hlen.
  - intros phone. eexists. split; [reflexivity|]. cbn.
    destruct (PageFacts.page_facts (StatusQueries.of_recipient phone)
                (default 50%nat limit) (default 0%nat offset) (db w))
      as (Hin & Hsorted & Hlen).
    split; [|split; [|split]].
    + rewrite QueryFacts.countDocuments_size. f_equal.
      apply map_filter_ext. intros i x _. cbn.
      unfold StatusQueries.of_recipient. apply String.eqb_eq.
    + intros d Hd. destruct (Hin d Hd) as [Hq Hex]. split; [|exact Hex].
      now apply String.eqb_eq in Hq.
    + exact Hsorted.
    + exact Hlen.
  - reflexivity.
  - reflexivity.
Qed.





(** X4. [createMessageStatus] never overwrites: when a record is stored
    under the message id the call throws, the duplicate key error of the
    unique index or a validation error when an identifier is missing, and
    leaves the world as it was. *)
Theorem createMessageStatus_never_overwrites
        (now : Date) (id phone : string) (conv : option string)
        (meta : option Metadata) (w : World) (d : MessageStatus)
        (Hstored : db w !! id = Some d) :
  exists e : Exn,
    StatusService.createMessageStatus now id phone conv meta w = (Throw e, w)
    /\ match e with
       | ValidationError _ => id = "" \/ phone = "" \/ conv = None \/ conv = Some ""
       | MongoServerError _ => True
       | _ => False
       end.
Proof.
  unfold StatusService.createMessageStatus. rewrite bind_run. unfold save at 1.
  unfold validate. cbn [messageId recipientPhone conversationId].
  destruct (truthy id) eqn:Hid; cbn [negb].
  2:{ eexists. split; [reflexivity|]. left.
      destruct id; [reflexivity|discriminate]. }
  destruct (truthy phone) eqn:Hphone; cbn [negb].
  2:{ eexists. split; [reflexivity|]. right. left.
      destruct phone; [reflexivity|discriminate]. }
  destruct (truthy_opt conv) eqn:Hconv; cbn [negb].
  2:{ eexists. split; [reflexivity|]. right. right.
      destruct conv as [[|]|]; auto; discriminate. }
  rewrite Hstored. rewrite bool_decide_eq_true_2 by eauto. cbn.
  eexists. split; [reflexivity|exact I].
Qed.

Lemma createMessageStatus_never_overwrites_witness :
  exists e : Exn,
    StatusService.createMessageStatus 5000 "wamid.1" "+221770000000"
                                      (Some "conv-2") None
                                      Scenarios.seeded_world
    = (Throw e, Scenarios.seeded_world)
    /\ match e with
       | ValidationError _ =>
           "wamid.1" = "" \/ "+221770000000" = ""
           \/ Some "conv-2" = None \/ Some "conv-2" = Some ""
       | MongoServerError _ => True
       | _ => False
       end.
Proof.
  eapply (createMessageStatus_never_overwrites
            5000 "wamid.1" "+221770000000" (Some "conv-2") None
            Scenarios.seeded_world).
  vm_compute. reflexivity.
Defined.

(** X5. In every world reached from the empty one by seedings, status
    updates, webhook deliveries, text jobs and cleanups, in any order and
    whatever the collaborators answer, each stored record is stored under
    its own message id, its history begins with a pending entry,
    [currentStatus] is the status of the last entry of the history, and
    [createdAt] and [updatedAt] are set. *)
Theorem reachable_records_follow_their_history
        (ops : list Pipeline.Operation) (id : string) (d : MessageStatus)
        (Hd : db (Pipeline.run_all ops Scenarios.empty_world) !! id = Some d) :
  messageId d = id
  /\ Projection.current_follows_history d
  /\ Projection.stamped d.
Proof.
  split; [|split].
  - eapply (PipelineFacts.pipeline_store_ok ops Scenarios.empty_world
              StatusFacts.store_ok_empty id d Hd).
  - revert Hd. apply RecordFacts.reachable_records.
    + intros. split; reflexivity.
    + intros. now apply RecordFacts.current_follows_history_updated.
  - revert Hd. apply RecordFacts.reachable_records.
    + intros. split; eauto.
    + intros now0 d0 st ts code msg [Hc _]. split; [exact Hc|cbn; eauto].
Qed.

Lemma reachable_records_follow_their_history_witness :
  exists d : MessageStatus,
    db (Pipeline.run_all MoreScenarios.history_ops Scenarios.empty_world)
       !! "wamid.1" = Some d
    /\ messageId d = "wamid.1"
    /\ Projection.current_follows_history d
    /\ Projection.stamped d.
Proof.
  destruct (db (Pipeline.run_all MoreScenarios.history_ops Scenarios.empty_world)
               !! "wamid.1") as [d|] eqn:Hd;
    [|exfalso; vm_compute in Hd; discriminate Hd].
  exists d. split; [reflexivity|].
  exact (reachable_records_follow_their_history
           MoreScenarios.history_ops "wamid.1" d Hd).
Defined.

(** X6. In every such world the fields of a record are a projection of
    its history: [sentAt], [deliveredAt], [readAt] and [failedAt] are the
    timestamp of the latest history entry with that status, absent when
    there is none, and [errorCode] and [errorMessage] are those of the
    latest failed entry. *)
Theorem reachable_fields_follow_history
        (ops : list Pipeline.Operation) (id : string) (d : MessageStatus)
        (Hd : db (Pipeline.run_all ops Scenarios.empty_world) !! id = Some d) :
  Projection.fields_follow_history d.
Proof.
  revert Hd. apply RecordFacts.reachable_records.
  - intros. repeat split.
  - intros. now apply RecordFacts.fields_follow_history_updated.
Qed.

Lemma reachable_fields_follow_history_witness :
  exists d : MessageStatus,
    db (Pipeline.run_all MoreScenarios.history_ops Scenarios.empty_world)
       !! "wamid.1" = Some d
    /\ Projection.fields_follow_history d.
Proof.
  destruct (db (Pipeline.run_all MoreScenarios.history_ops Scenarios.empty_world)
               !! "wamid.1") as [d|] eqn:Hd;
    [|exfalso; vm_compute in Hd; discriminate Hd].
  exists d. split; [reflexivity|].
  exact (reachable_fields_follow_history
           MoreScenarios.history_ops "wamid.1" d Hd).
Defined.

(** X7. [deleteOldStatuses] returns the number of records it removed.
    The records that stay are exactly those that were stored and have no
    [createdAt] before the bound, unchanged and under the same ids; the
    count and the size afterwards add up to the size before. It emits
    nothing and calls no collaborator. A second call with the same bound
    finds nothing: it returns 0 and leaves the collection as it is. *)
Theorem deleteOldStatuses_removes_exactly_the_old
        (olderThan : Date) (w : World) :
  let w' := snd (StatusQueries.deleteOldStatuses olderThan w) in
  exists deletedCount : nat,
    fst (StatusQueries.deleteOldStatuses olderThan w) = Return deletedCount
    /\ (deletedCount + size (db w'))%nat = size (db w)
    /\ (forall (id : string) (d : MessageStatus),
           db w' !! id = Some d
           <-> db w !! id = Some d
               /\ ~ (exists c : Date, createdAt d = Some c /\ c < olderThan))
    /\ emitted w' = emitted w
    /\ calls w' = calls w
    /\ fst (StatusQueries.deleteOldStatuses olderThan w') = Return 0%nat
    /\ db (snd (StatusQueries.deleteOldStatuses olderThan w')) = db w'.
Proof.
  intros w'. exists (StatusService.countDocuments
                       (StatusQueries.older_than olderThan) (db w)).
  split; [reflexivity|]. split; [apply QueryFacts.deleteOldStatuses_count|].
  split; [|split; [reflexivity|split; [reflexivity|]]].
  - intros id d. subst w'. rewrite QueryFacts.deleteOldStatuses_lookup.
    assert (StatusQueries.older_than olderThan d = false
            <-> ~ (exists c : Date, createdAt d = Some c /\ c < olderThan))
      as Hold.
    { unfold StatusQueries.older_than. destruct (createdAt d) as [c|].
      - rewrite Z.ltb_ge. split.
        + intros Hc (c' & [= <-] & Hlt). lia.
        + intros Hn. destruct (Z_lt_le_dec c olderThan); [|assumption].
          exfalso. eauto.
      - split; [intros _ (c & Hc & _); discriminate|reflexivity]. }
    rewrite <- Hold. destruct (db w !! id) as [d0|]; cbn.
    + destruct (StatusQueries.older_than olderThan d0) eqn:H0; split.
      * discriminate.
      * intros [[= ->] H1]. congruence.
      * intros [= ->]. auto.
      * intros [[= ->] _]. reflexivity.
    + split; [discriminate|intros [? _]; discriminate].
  - apply PageFacts.deleteOldStatuses_again.
Qed.

(** X8. The counts of [getStatistics]: [total] is the sum of [pending],
    [sent], [delivered], [read] and [failed], it is at most the size of
    the collection, and it is the size of the collection when no date is
    given. The call changes nothing. *)
Theorem getStatistics_counts_partition
        (startDate endDate : option Date) (w : World) :
  exists s : StatusService.Statistics,
    StatusService.getStatistics startDate endDate w = (Return s, w)
    /\ StatusService.total s
       = (StatusService.pending s + StatusService.sent s
          + StatusService.delivered s + StatusService.read s
          + StatusService.failed s)%nat
    /\ (StatusService.total s <= size (db w))%nat
    /\ (startDate = None -> endDate = None ->
        StatusService.total s = size (db w)).
Proof.
  eexists. split; [reflexivity|]. cbn.
  split; [apply PageFacts.status_counts_partition|]. split.
  - rewrite <- (QueryFacts.countDocuments_split
                  (fun d => StatusService.in_window
                              (StatusService.dateFilter startDate endDate) d
                            && true) (db w)).
    lia.
  - intros -> ->. cbn. unfold StatusService.countDocuments.
    rewrite <- (length_map_to_list (db w)), <- (List.length_map snd).
    f_equal. induction (map snd (map_to_list (db w))) as [|x l IH];
      cbn; [reflexivity|now rewrite IH].
Qed.

(** X9. A webhook delivery on a well-formed collection neither adds nor
    removes a record, whatever its content, whatever the collaborators
    answer and whether it ends in "ok" or in "error". Each record keeps
    its message id, recipient, conversation id, metadata and [createdAt],
    and its history afterwards begins with its history before: entries
    are appended, none is changed or dropped. *)
Theorem webhook_only_continues_records
        (ext : Collaborators) (now : Date) (webhookData : Webhook.WebhookData)
        (w : World) (Hok : store_ok (db w)) :
  let w' := snd (Webhook.receiveWebhook ext now webhookData w) in
  forall id : string,
    match db w !! id, db w' !! id with
    | Some d, Some d' =>
        messageId d' = messageId d
        /\ recipientPhone d' = recipientPhone d
        /\ conversationId d' = conversationId d
        /\ metadata d' = metadata d
        /\ createdAt d' = createdAt d
        /\ statusHistory d `prefix_of` statusHistory d'
    | None, None => True
    | _, _ => False
    end.
Proof.
  intros w' id.
  exact (proj2 (RecordFacts.only_grows_receiveWebhook ext now webhookData w Hok)
               id).
Qed.

Lemma webhook_only_continues_records_witness :
  match db Scenarios.seeded_world !! "wamid.1",
        db (snd (Webhook.receiveWebhook
                   Scenarios.provider_accepts 5000
                   (Webhook.status_webhook [Scenarios.orphan_status])
                   Scenarios.seeded_world)) !! "wamid.1" with
  | Some d, Some d' =>
      createdAt d' = createdAt d
      /\ statusHistory d `prefix_of` statusHistory d'
  | _, _ => False
  end.
Proof.
  pose proof (webhook_only_continues_records
                Scenarios.provider_accepts 5000
                (Webhook.status_webhook [Scenarios.orphan_status])
                Scenarios.seeded_world SequenceFacts.seeded_world_ok
                "wamid.1") as H.
  cbv zeta in H.
  destruct (db Scenarios.seeded_world !! "wamid.1") as [d|] eqn:Hd;
    [|exfalso; vm_compute in Hd; discriminate Hd].
  destruct (db (snd (Webhook.receiveWebhook
                       Scenarios.provider_accepts 5000
                       (Webhook.status_webhook [Scenarios.orphan_status])
                       Scenarios.seeded_world)) !! "wamid.1"); [|exact H].
  destruct H as (_ & _ & _ & _ & Hc & Hp). split; assumption.
Defined.



(** X11. No rollback and no continuation: when the WebhooksService
    rejects the status of the first callback of a batch, the update of
    the delivery record for that callback stays written and published,
    the callbacks after it are not processed (no record changes, no
    emission and no call for them), and the handler answers "error" with
    the message of the exception. *)
Theorem webhook_batch_stops_at_the_first_failure
        (ext : Collaborators) (now : Date) (s : Webhook.WaStatus)
        (rest : list Webhook.WaStatus) (w : World) (e : Exn)
        (Hok : store_ok (db w))
        (Hadd : forall cs t, addWebhook_result ext cs t = None)
        (Hfail : forall cs,
            webhooks_updateStatus_result ext cs (Webhook.wa_id s)
                                         (Webhook.wa_status s) = Some e) :
  let w' := snd (Webhook.receiveWebhook
                   ext now (Webhook.status_webhook (s :: rest)) w) in
  fst (Webhook.receiveWebhook ext now (Webhook.status_webhook (s :: rest)) w)
  = Return (Webhook.mkResponse "error" (Some (exn_message e)))
  /\ db w' = db (Batch.apply_callback now w s)
  /\ emitted w' = emitted (Batch.apply_callback now w s)
  /\ calls w' = calls w ++ [AddWebhook "status"; Webhook.status_call s].
Proof.
  intros w'. subst w'.
  unfold Webhook.receiveWebhook. rewrite bind_run, logger_run.
  unfold try_catch. cbn [Webhook.first_value Webhook.status_webhook].
  cbn -[Webhook.for_statuses]. rewrite !bind_run.
  unfold Whatsapp.addWebhook.
  rewrite WebhookFacts.call_unit_resolves by apply Hadd.
  rewrite bind_run. cbn -[Webhook.for_statuses]. rewrite !bind_run.
  rewrite logger_run. cbn [Webhook.for_statuses].
  unfold Webhook.process_status. rewrite !bind_run.
  destruct (BatchFacts.updateStatus_data
              now (Webhook.wa_id s)
              (Webhook.mapWhatsAppStatus (Webhook.wa_status s))
              (Webhook.wa_timestamp s * 1000) (Webhook.error_code s)
              (Webhook.error_message s) w Hok)
    as (r & m & es & ls & Hrun).
  unfold Batch.apply_callback. rewrite (Hrun w eq_refl eq_refl).
  match goal with |- context [StatusService.updateStatus _ _ _ _ _ _ ?w0] =>
    rewrite (Hrun w0 eq_refl eq_refl)
  end.
  unfold call_unit. rewrite Hfail. cbn [fst snd].
  rewrite bind_run, logger_run. cbn. repeat split.
  now rewrite <- app_assoc.
Qed.

Lemma webhook_batch_stops_at_the_first_failure_witness :
  let w' := snd (Webhook.receiveWebhook
                   MoreScenarios.bookkeeping_fails 5000
                   (Webhook.status_webhook [MoreScenarios.read_status;
                                            MoreScenarios.failed_status])
                   Scenarios.seeded_world) in
  fst (Webhook.receiveWebhook
         MoreScenarios.bookkeeping_fails 5000
         (Webhook.status_webhook [MoreScenarios.read_status;
                                  MoreScenarios.failed_status])
         Scenarios.seeded_world)
  = Return (Webhook.mkResponse "error" (Some "Webhook not found"))
  /\ (currentStatus <$> db w' !! "wamid.1") = Some READ.
Proof.
  intros w'. subst w'.
  destruct (webhook_batch_stops_at_the_first_failure
              MoreScenarios.bookkeeping_fails 5000
              MoreScenarios.read_status [MoreScenarios.failed_status]
              Scenarios.seeded_world (Error "Webhook not found")
              SequenceFacts.seeded_world_ok
              (fun _ _ => eq_refl) (fun _ => eq_refl))
    as (Hr & Hdb & _).
  split; [exact Hr|]. rewrite Hdb. vm_compute. reflexivity.
Defined.

(** X12. When the WebhooksService fails to store the webhook, nothing of
    it is processed: no delivery record changes, nothing is emitted, the
    error is logged and the handler answers "error" with the message of
    the exception. The type under which the webhook was to be stored is
    "status" when the value has statuses, "message" when it has messages
    and no statuses, "unknown" when it has neither. *)
Theorem webhook_store_failure_skips_the_statuses
        (ext : Collaborators) (now : Date) (webhookData : Webhook.WebhookData)
        (w : World) (v : Webhook.WaValue) (e : Exn)
        (Hvalue : Webhook.first_value webhookData = Some v)
        (Hfail : forall t, addWebhook_result ext (calls w) t = Some e) :
  exists t : string,
    Webhook.receiveWebhook ext now webhookData w
    = (Return (Webhook.mkResponse "error" (Some (exn_message e))),
       {| db := db w; emitted := emitted w;
          logs := logs w
                    ++ [mkLog LOG "Received webhook data:";
                        mkLog ERROR ("Error processing webhook: "
                                       +:+ exn_message e)];
          calls := calls w ++ [AddWebhook t] |})
    /\ (t = "status" <-> is_Some (Webhook.wa_statuses v))
    /\ (t = "message" <->
        is_Some (Webhook.wa_messages v) /\ Webhook.wa_statuses v = None)
    /\ (t = "unknown" <->
        Webhook.wa_messages v = None /\ Webhook.wa_statuses v = None).
Proof.
  unfold Webhook.receiveWebhook. rewrite bind_run, logger_run.
  unfold try_catch. rewrite Hvalue. rewrite !bind_run.
  unfold Whatsapp.addWebhook, call_unit at 1. cbn [calls add_log].
  rewrite Hfail. cbn [fst snd]. rewrite bind_run, logger_run.
  unfold add_log, record_call. cbn. eexists. split.
  - rewrite <- app_assoc. reflexivity.
  - destruct (Webhook.wa_statuses v) as [ss|], (Webhook.wa_messages v) as [ms|];
      cbn; repeat case_bool_decide;
      repeat match goal with
             | H : ~ is_Some (Some _) |- _ => exfalso; apply H; eauto
             | H : is_Some None |- _ => destruct H; discriminate
             end;
      repeat split; try discriminate; try tauto; eauto;
        try (intros [? ?]; discriminate);
        try (intros [[? ?] ?]; discriminate).
Qed.


(** X14. When the provider answers with an error response, [sendMessage]
    throws an HttpException with the provider's HTTP status and its error
    message, the outgoing webhook is not stored, and the failure is
    logged with the message of the error caught. *)
Theorem provider_error_keeps_its_status
        (ext : Collaborators) (dto : Whatsapp.SendMessageDto) (w : World)
        (text : string) (st : Z) (detail : option string)
        (Hpost : post_result ext (calls w) (Whatsapp.to dto)
                             (default "text" (Whatsapp.type dto))
                             (Whatsapp.message dto)
                 = inl (AxiosError text (Some (st, detail)))) :
  let posted := HttpPost (Whatsapp.to dto)
                         (default "text" (Whatsapp.type dto))
                         (Whatsapp.message dto) in
  fst (Whatsapp.sendMessage ext dto w)
  = Throw (HttpException
             ("WhatsApp API Error: "
                +:+ match detail with
                    | Some (String a x) => String a x
                    | _ => "Unknown error"
                    end)
             st)
  /\ calls (snd (Whatsapp.sendMessage ext dto w)) = calls w ++ [posted]
  /\ logs (snd (Whatsapp.sendMessage ext dto w))
     = logs w ++ [mkLog DEBUG ("Sending message to " +:+ Whatsapp.to dto);
                  mkLog ERROR ("Failed to send message: " +:+ text)].
Proof.
  intros posted. rewrite SendFacts.sendMessage_run, Hpost. cbn.
  destruct detail as [[|a x]|]; repeat split.
Qed.

Lemma provider_error_keeps_its_status_witness :
  fst (Whatsapp.sendMessage MoreScenarios.provider_rejects
                            MoreScenarios.hello Scenarios.empty_world)
  = Throw (HttpException "WhatsApp API Error: Invalid recipient" 400)
  /\ calls (snd (Whatsapp.sendMessage MoreScenarios.provider_rejects
                                      MoreScenarios.hello Scenarios.empty_world))
     = [HttpPost "+221700000000" "text" "hello"].
Proof.
  destruct (provider_error_keeps_its_status
              MoreScenarios.provider_rejects MoreScenarios.hello
              Scenarios.empty_world
              "Request failed with status code 400" 400
              (Some "Invalid recipient") eq_refl) as (Hr & Hc & _).
  split; [exact Hr|exact Hc].
Defined.

(** X15. A send the provider has accepted is reported as failed when the
    WebhooksService then fails to store the outgoing webhook:
    [sendMessage] throws the HttpException with status 500 although the
    HTTP call has been made and answered. *)
Theorem accepted_send_can_still_fail
        (ext : Collaborators) (dto : Whatsapp.SendMessageDto) (w : World)
        (r : WhatsappApiResponse) (reason : string)
        (Hpost : post_result ext (calls w) (Whatsapp.to dto)
                             (default "text" (Whatsapp.type dto))
                             (Whatsapp.message dto) = inr r)
        (Hadd : forall cs t, addWebhook_result ext cs t = Some (Error reason)) :
  let posted := HttpPost (Whatsapp.to dto)
                         (default "text" (Whatsapp.type dto))
                         (Whatsapp.message dto) in
  fst (Whatsapp.sendMessage ext dto w)
  = Throw (HttpException "Failed to send WhatsApp message" 500)
  /\ calls (snd (Whatsapp.sendMessage ext dto w))
     = calls w ++ [posted; AddWebhook "message_sent"].
Proof.
  intros posted. rewrite SendFacts.sendMessage_run, Hpost, Hadd.
  split; reflexivity.
Qed.

Lemma accepted_send_can_still_fail_witness :
  fst (Whatsapp.sendMessage MoreScenarios.storage_fails
                            MoreScenarios.hello Scenarios.empty_world)
  = Throw (HttpException "Failed to send WhatsApp message" 500)
  /\ calls (snd (Whatsapp.sendMessage MoreScenarios.storage_fails
                                      MoreScenarios.hello Scenarios.empty_world))
     = [HttpPost "+221700000000" "text" "hello"; AddWebhook "message_sent"].
Proof.
  exact (accepted_send_can_still_fail
           MoreScenarios.storage_fails MoreScenarios.hello
           Scenarios.empty_world Scenarios.accepted_response
           "Storage unavailable" eq_refl (fun _ _ => eq_refl)).
Defined.

(** X16. The queue processor adds only log lines to a text send: the
    SEND_TEXT job has the outcome of [sendTextMessage] on the address and
    the text of the job, result or exception, and makes the same calls.
    It logs the start of the job and of the send, then what the send
    logs, and, when the send throws, the failure of the job with the
    message of the exception, which it throws again. *)
Theorem text_job_is_a_logged_sendTextMessage
        (ext : Collaborators) (job : Whatsapp.Job) (w : World) :
  let direct := Whatsapp.sendTextMessage
                  ext (Whatsapp.job_to (Whatsapp.job_data job))
                  (Whatsapp.job_text (Whatsapp.job_data job)) w in
  let queued := Whatsapp.process_SEND_TEXT ext job w in
  fst queued = fst direct
  /\ calls (snd queued) = calls (snd direct)
  /\ emitted (snd queued) = emitted w
  /\ exists tail : list LogEntry,
      logs (snd queued)
      = logs w
          ++ [mkLog DEBUG ("Processing job " +:+ Whatsapp.job_id job
                             +:+ " of type send-text");
              mkLog DEBUG ("Sending text message to "
                             +:+ Whatsapp.job_to (Whatsapp.job_data job))]
          ++ drop (length (logs w)) (logs (snd direct))
          ++ tail
      /\ match fst direct with
         | Return _ => tail = []
         | Throw e =>
             tail = [mkLog ERROR ("Failed to process job "
                                    +:+ Whatsapp.job_id job +:+ ": "
                                    +:+ exn_message e)]
         end.
Proof.
  intros direct queued. subst direct queued.
  unfold Whatsapp.process_SEND_TEXT, Whatsapp.processTextMessage.
  rewrite bind_run, logger_run. unfold try_catch.
  rewrite bind_run, logger_run. unfold Whatsapp.sendTextMessage.
  rewrite !SendFacts.sendMessage_run. cbn [calls add_log Whatsapp.to
    Whatsapp.type Whatsapp.message default].
  destruct (post_result ext (calls w) _ _ _) as [e|r].
  - rewrite bind_run, logger_run. cbn. repeat split.
    eexists. split; [|reflexivity].
    rewrite drop_app_length. cbn. now rewrite <- !app_assoc.
  - destruct (addWebhook_result ext _ "message_sent") as [e|].
    + rewrite bind_run, logger_run. cbn. repeat split.
      eexists. split; [|reflexivity].
      rewrite drop_app_length. cbn. now rewrite <- !app_assoc.
    + cbn. repeat split. eexists. split; [|reflexivity].
      rewrite drop_app_length. cbn. now rewrite <- !app_assoc.
Qed.

Lemma webhook_store_failure_skips_the_statuses_witness :
  fst (Webhook.receiveWebhook
         MoreScenarios.storage_fails 5000
         (Webhook.status_webhook [MoreScenarios.read_status])
         Scenarios.seeded_world)
  = Return (Webhook.mkResponse "error" (Some "Storage unavailable"))
  /\ db (snd (Webhook.receiveWebhook
                MoreScenarios.storage_fails 5000
                (Webhook.status_webhook [MoreScenarios.read_status])
                Scenarios.seeded_world))
     = db Scenarios.seeded_world.
Proof.
  destruct (webhook_store_failure_skips_the_statuses
              MoreScenarios.storage_fails 5000
              (Webhook.status_webhook [MoreScenarios.read_status])
              Scenarios.seeded_world
              {| Webhook.wa_messages := None;
                 Webhook.wa_statuses := Some [MoreScenarios.read_status] |}
              (Error "Storage unavailable") eq_refl (fun _ => eq_refl))
    as (t & Hrun & _).
  rewrite Hrun. split; reflexivity.
Defined.

